(** * Job lifecycle orchestrator of the crawl API

    A shallow embedding of [apps/api/src/main/runWebScraper.ts] (the crawl
    executor, its progress buffer and the billing gate) and of the
    supervisor and admin endpoints of the API entry point (worker pool,
    reclaim-and-requeue, retention sweep, deferred alert).

    The external collaborators (crawl pipeline, billing ledger, queue
    store, database) are oracles collected in a [World] record; every call
    the code makes to one of them is recorded, in program order, in a log
    of events.  JavaScript exceptions are the [Throw] outcome of a small
    state-and-error monad. *)

From Stdlib Require Import String Ascii Bool Arith NArith ZArith Lia List.
Import ListNotations.

Set Implicit Arguments.

(* ===================================================================== *)
(** ** JavaScript strings *)
(* ===================================================================== *)

Module JS.

(** A JavaScript string is a sequence of UTF-16 code units. *)
Definition jsstring := list N.

(** String literals of the source, which are all ASCII. *)
Definition lit (s : string) : jsstring :=
  map N_of_ascii (list_ascii_of_string s).

Fixpoint eqb (a b : jsstring) : bool :=
  match a, b with
  | [], [] => true
  | x :: a', y :: b' => N.eqb x y && eqb a' b'
  | _, _ => false
  end.

(** ECMAScript [WhiteSpace] and [LineTerminator] code points, the ones
    [String.prototype.trim] strips.  All of them are in the basic plane, so
    the test is on single code units. *)
Definition isWhiteSpace (c : N) : bool :=
  (N.eqb c 9 || N.eqb c 10 || N.eqb c 11 || N.eqb c 12 || N.eqb c 13
   || N.eqb c 32 || N.eqb c 160 || N.eqb c 5760
   || (N.leb 8192 c && N.leb c 8202)
   || N.eqb c 8232 || N.eqb c 8233 || N.eqb c 8239 || N.eqb c 8287
   || N.eqb c 12288 || N.eqb c 65279)%bool.

Fixpoint trimStart (s : jsstring) : jsstring :=
  match s with
  | [] => []
  | c :: s' => if isWhiteSpace c then trimStart s' else s
  end.

Definition trimEnd (s : jsstring) : jsstring := rev (trimStart (rev s)).

(** [s.trim()] *)
Definition trim (s : jsstring) : jsstring := trimEnd (trimStart s).

(** [a.slice(-n)]: the last [n] elements of an array. *)
Definition slice_last {A : Type} (n : nat) (a : list A) : list A :=
  skipn (length a - n) a.

(** [s.split(",")] with a one-code-unit separator: never empty, a trailing
    separator yields a trailing empty string. *)
Fixpoint split (sep : N) (s : jsstring) : list jsstring :=
  match s with
  | [] => [[]]
  | c :: s' =>
      if N.eqb c sep then [] :: split sep s'
      else match split sep s' with
           | [] => [[c]]
           | w :: ws => (c :: w) :: ws
           end
  end.

(** Truthiness of an optional string property: [undefined] and the empty
    string are falsy. *)
Definition truthy (v : option jsstring) : bool :=
  match v with
  | Some (_ :: _) => true
  | _ => false
  end.

(** A string made only of white space (the empty string included). *)
Definition blank (s : jsstring) : bool := forallb isWhiteSpace s.

End JS.

Import JS.

(* ===================================================================== *)
(** ** Entities *)
(* ===================================================================== *)

(** Modelled from the spec: the [Document] entity of [lib/entities], whose
    declaration is not among the sources; the fields are those the code
    reads.  The code tests [metadata.sourceURL] for truthiness, so it is
    optional here. *)
Record Metadata := { sourceURL : option jsstring }.

Record Document := { content : jsstring; metadata : Metadata }.

(** Modelled from the spec: the [Progress] entity of [lib/entities], whose
    declaration is not among the sources: a step counter and an optional
    [currentDocument]. *)
Record Progress := {
  current : nat;
  total : nat;
  status : jsstring;
  currentDocument : option Document
}.

(** A thrown value; the code only reads its [message]. *)
Record Error := { err_message : jsstring }.

Record CrawlerOptions := { returnOnlyUrls : bool }.

(** The page options are passed through untouched. *)
Record PageOptions := { page_options : jsstring }.

(** Job ids are kept as strings. *)
Definition JobId := jsstring.

(** Modelled from the spec: the payload of a job ([WebScraperOptions] of
    [types], not among the sources), with the fields the code reads; of the
    crawler options only [returnOnlyUrls] is read. *)
Record WebScraperOptions := {
  data_url : jsstring;
  data_mode : jsstring;
  data_crawlerOptions : CrawlerOptions;
  data_pageOptions : PageOptions;
  data_team_id : jsstring
}.

(** A queue job: the fields the code reads.  [finishedOn] is set when the
    job reaches a terminal state. *)
Record Job := {
  job_id : JobId;
  job_data : WebScraperOptions;
  job_finishedOn : option Z
}.

(** An element of [filteredDocs]: the URL branch yields [{url}] objects or
    [undefined] (the arrow function falls off its end), the other branch
    yields the documents themselves. *)
Inductive ResultDoc :=
| RUndefined
| RUrl (url : jsstring)
| RDocument (d : Document).

Record RunWebScraperResult := {
  success : bool;
  message : jsstring;
  docs : list ResultDoc
}.

(** Modelled from the spec: the answer of the billing gate, of which the
    code reads [success]. *)
Record BillingResult := { billing_success : bool }.

(** Options handed to [provider.setOptions]. *)
Record ProviderOptions := {
  po_mode : jsstring;
  po_urls : list jsstring;
  po_crawlerOptions : CrawlerOptions;
  po_pageOptions : PageOptions;
  po_bullJobId : option jsstring
}.

(* ===================================================================== *)
(** ** Effects *)
(* ===================================================================== *)

Inductive Outcome (A : Type) :=
| Ret (a : A)
| Throw (e : Error).

Arguments Ret {A} a.
Arguments Throw {A} e.

(** A computation over a mutable state [S] that returns or throws. *)
Definition M (S A : Type) := S -> Outcome A * S.

Section Monad.
Context {S : Type}.

Definition ret {A} (a : A) : M S A := fun st => (Ret a, st).

Definition throw {A} (e : Error) : M S A := fun st => (Throw e, st).

Definition bind {A B} (m : M S A) (k : A -> M S B) : M S B :=
  fun st =>
    match m st with
    | (Ret a, st') => k a st'
    | (Throw e, st') => (Throw e, st')
    end.

(** [try { m } catch (error) { h error }]: the effects of [m] up to the
    throw are kept. *)
Definition try_catch {A} (m : M S A) (h : Error -> M S A) : M S A :=
  fun st =>
    match m st with
    | (Ret a, st') => (Ret a, st')
    | (Throw e, st') => h e st'
    end.

(** The answer of a collaborator, which may depend on the state. *)
Definition ask {A} (f : S -> Outcome A) : M S A := fun st => (f st, st).
End Monad.

Declare Scope js_scope.
Delimit Scope js_scope with js.
Notation "x <- c ;; k" := (bind c (fun x => k))
  (at level 100, c at next level, right associativity) : js_scope.
Notation "c ;; k" := (bind c (fun _ => k))
  (at level 100, right associativity) : js_scope.
Open Scope js_scope.

Fixpoint for_each {S A} (f : A -> M S unit) (l : list A) : M S unit :=
  match l with
  | [] => ret tt
  | x :: l' => f x ;; for_each f l'
  end.

(* ===================================================================== *)
(** ** The crawl executor: runWebScraper.ts *)
(* ===================================================================== *)

(** Calls to the collaborators, as the code makes them:
    [provider.setOptions], [provider.getDocuments], [job.progress] with the
    report and the buffer as it is when the call serializes it,
    [billTeam], the database update of [saveJob],
    [job.moveToCompleted] ([None] is [null]), [job.moveToFailed] and
    [console.error]. *)
Inductive Event :=
| SetOptions (o : ProviderOptions)
| GetDocuments
| JobProgress (p : Progress) (partial : list Document)
| BillTeam (team_id : jsstring) (count : nat)
| DbUpdate (id : JobId) (result : list ResultDoc)
| MoveToCompleted (returnvalue : option (list ResultDoc))
| MoveToFailed (e : Error)
| ConsoleError (msg : jsstring) (e : Error).

(** What the collaborators answer.  The crawl pipeline, the billing
    ledger, the database and the queue are outside the sources; they are
    parameters of the executor. *)
Record World := {
  (** [provider.setOptions]: resolves or rejects *)
  setOptions_outcome : ProviderOptions -> Outcome unit;
  (** [provider.getDocuments]: the progress reports it emits, then the
      documents or a rejection *)
  getDocuments_run : ProviderOptions -> list Progress * Outcome (list Document);
  (** [billTeam(team_id, n)] *)
  billTeam_outcome : jsstring -> nat -> Outcome BillingResult;
  (** [process.env.USE_DB_AUTHENTICATION] *)
  USE_DB_AUTHENTICATION : option jsstring;
  (** the [update] of [firecrawl_jobs]: rejects, or resolves with an
      optional [error] *)
  dbUpdate_outcome : JobId -> list ResultDoc -> Outcome (option Error);
  (** [job.moveToCompleted] *)
  moveToCompleted_outcome : option (list ResultDoc) -> Outcome unit
}.

(** The mutable state: the [partialDocs] variable captured by the progress
    callback, and the log. *)
Record St := { partialDocs : list Document; log : list Event }.

Definition emit (e : Event) : M St unit :=
  fun st => (Ret tt, {| partialDocs := partialDocs st; log := log st ++ [e] |}).

Definition get_partialDocs : M St (list Document) :=
  fun st => (Ret (partialDocs st), st).

Definition set_partialDocs (d : list Document) : M St unit :=
  fun st => (Ret tt, {| partialDocs := d; log := log st |}).

Definition initial : St := {| partialDocs := []; log := [] |}.

Record RunWebScraperParams := {
  url : jsstring;
  mode : jsstring;
  crawlerOptions : CrawlerOptions;
  pageOptions : PageOptions;
  inProgress : Progress -> M St unit;
  onSuccess : list ResultDoc -> M St unit;
  onError : Error -> M St unit;
  team_id : jsstring;
  bull_job_id : jsstring
}.

(** [provider.setOptions(o)] *)
Definition provider_setOptions (w : World) (o : ProviderOptions) : M St unit :=
  emit (SetOptions o) ;; ask (fun _ => setOptions_outcome w o).

(** [provider.getDocuments(false, cb)]: the pipeline calls [cb] on each of
    its progress reports before it settles. *)
Definition provider_getDocuments (w : World) (o : ProviderOptions)
    (cb : Progress -> M St unit) : M St (list Document) :=
  emit GetDocuments ;;
  for_each cb (fst (getDocuments_run w o)) ;;
  ask (fun _ => snd (getDocuments_run w o)).

Definition billTeam (w : World) (team : jsstring) (n : nat) : M St BillingResult :=
  emit (BillTeam team n) ;; ask (fun _ => billTeam_outcome w team n).

(** [job.moveToCompleted(v)]; [None] is [null]. *)
Definition job_moveToCompleted (w : World) (v : option (list ResultDoc)) : M St unit :=
  emit (MoveToCompleted v) ;; ask (fun _ => moveToCompleted_outcome w v).

(** The [returnOnlyUrls] branch of the filter. *)
Definition to_url (doc : Document) : ResultDoc :=
  if truthy (sourceURL (metadata doc))
  then match sourceURL (metadata doc) with
       | Some u => RUrl u
       | None => RUndefined
       end
  else RUndefined.

(** [doc.content.trim().length > 0] *)
Definition has_content (doc : Document) : bool :=
  0 <? length (trim (content doc)).

Definition filterDocs (co : CrawlerOptions) (docs : list Document) : list ResultDoc :=
  if returnOnlyUrls co
  then map to_url docs
  else map RDocument (filter has_content docs).

Definition billing_failure_message : jsstring :=
  lit "Failed to bill team, no subscription was found".

(** The options of the two branches of [mode === "crawl"]; 44 is the
    comma of [url.split(",")]. *)
Definition provider_options (p : RunWebScraperParams) : ProviderOptions :=
  if JS.eqb (mode p) (lit "crawl")
  then {| po_mode := mode p; po_urls := [url p];
          po_crawlerOptions := crawlerOptions p;
          po_pageOptions := pageOptions p;
          po_bullJobId := Some (bull_job_id p) |}
  else {| po_mode := mode p; po_urls := split 44 (url p);
          po_crawlerOptions := crawlerOptions p;
          po_pageOptions := pageOptions p;
          po_bullJobId := None |}.

Definition runWebScraper (w : World) (p : RunWebScraperParams)
    : M St RunWebScraperResult :=
  try_catch
    (let o := provider_options p in
     provider_setOptions w o ;;
     docs <- provider_getDocuments w o (fun progress => inProgress p progress) ;;
     if length docs =? 0
     then ret {| success := true; message := lit "No pages found"; docs := [] |}
     else
       let filteredDocs := filterDocs (crawlerOptions p) docs in
       billingResult <- billTeam w (team_id p) (length filteredDocs) ;;
       if negb (billing_success billingResult)
       then ret {| success := false; message := billing_failure_message;
                   docs := [] |}
       else
         onSuccess p filteredDocs ;;
         ret {| success := true; message := lit ""; docs := filteredDocs |})
    (fun error =>
       emit (ConsoleError (lit "Error running web scraper") error) ;;
       onError p error ;;
       ret {| success := false; message := err_message error; docs := [] |}).

(** [process.env.USE_DB_AUTHENTICATION === "true"] *)
Definition use_db (w : World) : bool :=
  match USE_DB_AUTHENTICATION w with
  | Some v => JS.eqb v (lit "true")
  | None => false
  end.

(** [saveJob] is started by [onSuccess] and not awaited; its calls are
    logged in its own program order. *)
Definition saveJob (w : World) (job : Job) (result : list ResultDoc) : M St unit :=
  try_catch
    (if use_db w
     then
       emit (DbUpdate (job_id job) result) ;;
       error <- ask (fun _ => dbUpdate_outcome w (job_id job) result) ;;
       match error with
       | Some e => throw {| err_message := err_message e |}
       | None => try_catch (job_moveToCompleted w None) (fun _ => ret tt)
       end
     else
       try_catch (job_moveToCompleted w (Some result)) (fun _ => ret tt))
    (fun error => emit (ConsoleError (lit "Failed to update job status:") error)).

(** The progress callback of [startWebScraperPipeline]. *)
Definition pipeline_inProgress (progress : Progress) : M St unit :=
  match currentDocument progress with
  | Some doc =>
      buf <- get_partialDocs ;;
      set_partialDocs (buf ++ [doc]) ;;
      buf <- get_partialDocs ;;
      (if 50 <? length buf then set_partialDocs (slice_last 50 buf) else ret tt) ;;
      buf <- get_partialDocs ;;
      emit (JobProgress progress buf)
  | None => ret tt
  end.

(** The parameters [startWebScraperPipeline] passes; job ids are kept as
    strings, so [job.id.toString()] is the id. *)
Definition pipeline_params (w : World) (job : Job) : RunWebScraperParams :=
  {| url := data_url (job_data job);
     mode := data_mode (job_data job);
     crawlerOptions := data_crawlerOptions (job_data job);
     pageOptions := data_pageOptions (job_data job);
     inProgress := pipeline_inProgress;
     onSuccess := fun result => saveJob w job result;
     onError := fun error => emit (MoveToFailed error);
     team_id := data_team_id (job_data job);
     bull_job_id := job_id job |}.

Definition startWebScraperPipeline (w : World) (job : Job)
    : M St RunWebScraperResult :=
  set_partialDocs [] ;;
  runWebScraper w (pipeline_params w job).

(** The documents the progress reports carry, in emission order. *)
Definition emitted (ps : list Progress) : list Document :=
  flat_map (fun p => match currentDocument p with
                     | Some d => [d]
                     | None => []
                     end) ps.

Definition is_billing (e : Event) : bool :=
  match e with
  | BillTeam _ _ => true
  | _ => false
  end.

(** The calls that move the job to a terminal state. *)
Definition is_transition (e : Event) : bool :=
  match e with
  | MoveToCompleted _ | MoveToFailed _ => true
  | _ => false
  end.

Definition billing_calls (l : list Event) : nat := length (filter is_billing l).

(* ===================================================================== *)
(** ** The API entry point: supervisor and admin endpoints *)
(* ===================================================================== *)

Module Server.

(** *** Worker pool supervisor *)

Inductive ClusterOp :=
| Fork
| LogMasterRunning
| LogWorkerExited (pid : nat)
| LogStartingNewWorker.

(** [process.env.ENV === "local" ? 2 : os.cpus().length] *)
Definition numCPUs (ENV : option jsstring) (cpus : nat) : nat :=
  if match ENV with
     | Some v => JS.eqb v (lit "local")
     | None => false
     end
  then 2 else cpus.

(** The arguments of an ["exit"] event of the cluster; a worker killed by a
    signal has the exit code [null], here [None]. *)
Record ExitEvent := {
  worker_pid : nat;
  exit_code : option Z;
  exit_signal : option jsstring
}.

(** The master block up to the registration of the handler. *)
Definition master_start (ENV : option jsstring) (cpus : nat) : list ClusterOp :=
  LogMasterRunning :: repeat Fork (numCPUs ENV cpus).

(** The ["exit"] handler: [if (code !== null) { ...; cluster.fork(); }] *)
Definition on_exit (ev : ExitEvent) : list ClusterOp :=
  match exit_code ev with
  | Some _ => [LogWorkerExited (worker_pid ev); LogStartingNewWorker; Fork]
  | None => []
  end.

(** The master over a run in which the given exit events are observed. *)
Definition master (ENV : option jsstring) (cpus : nat) (exits : list ExitEvent)
    : list ClusterOp :=
  master_start ENV cpus ++ flat_map on_exit exits.

Definition is_fork (op : ClusterOp) : bool :=
  match op with
  | Fork => true
  | _ => false
  end.

Definition forks (ops : list ClusterOp) : nat := length (filter is_fork ops).

(** *** Queue operations *)

Inductive JobState := Waiting | Active | Completed | Failed.

(** An entry of [addBulk]: [{ data, opts: { jobId } }] *)
Record AddRequest := { add_data : WebScraperOptions; add_jobId : JobId }.

Inductive Body :=
| BodyOk
| BodyError (msg : jsstring)
| BodyText (text : jsstring)
| BodyRemoved (count : nat).

Record Response := { status : nat; body : Body }.

(** Calls to the queue store and the console.  [PromiseAll] holds the logs
    of the tasks of one [Promise.all], one per task in the order of the
    array; the tasks run interleaved, each in its own program order. *)
#[local] Unset Elimination Schemes.
Inductive QueueOp :=
| GetActive
| DelLock (x : Job)
| TakeLock (x : Job)
| JobMoveToFailed (x : Job) (reason : Error)
| JobRemove (x : Job)
| PromiseAll (tasks : list (list QueueOp))
| AddBulk (reqs : list AddRequest)
| Resume
| GetJobs (types : list JobState) (first last : nat) (asc : bool)
| ConsoleLog (msg : jsstring) (n : option nat)
| ConsoleWarn (msg : jsstring) (id : JobId) (e : Error)
| ConsoleError (msg : jsstring) (id : option JobId) (e : Error).
#[local] Set Elimination Schemes.

Definition Log := list QueueOp.

(** What the queue store and the clock answer; an answer may depend on the
    calls made so far. *)
Record Queue := {
  getActive_outcome : Outcome (list Job);
  del_outcome : Log -> Job -> Outcome unit;
  takeLock_outcome : Log -> Job -> Outcome unit;
  moveToFailed_outcome : Log -> Job -> Outcome unit;
  remove_outcome : Log -> Job -> Outcome unit;
  addBulk_outcome : list AddRequest -> Outcome unit;
  resume_outcome : Outcome unit;
  getJobs_outcome : Log -> list JobState -> nat -> nat -> bool -> Outcome (list Job);
  (** the n-th reading of [Date.now()] in a handler *)
  Date_now : nat -> Z
}.

Definition emit (op : QueueOp) : M Log unit :=
  fun l => (Ret tt, l ++ [op]).

(** [Promise.all] over tasks that are started together: it rejects as soon
    as one of them does. *)
Fixpoint all_settled {A} (rs : list (Outcome A)) : Outcome (list A) :=
  match rs with
  | [] => Ret []
  | Throw e :: _ => Throw e
  | Ret a :: rs' =>
      match all_settled rs' with
      | Ret l => Ret (a :: l)
      | Throw e => Throw e
      end
  end.

Definition promise_all (tasks : list (M Log unit)) : M Log unit :=
  fun l =>
    let runs := map (fun t => t []) tasks in
    (match all_settled (map fst runs) with
     | Ret _ => Ret tt
     | Throw e => Throw e
     end,
     l ++ [PromiseAll (map snd runs)]).

(** *** POST /unpause: reclaim and requeue *)

Definition interrupted : Error := {| err_message := lit "interrupted" |}.

(** The task of one active job [x]. *)
Definition reclaim (q : Queue) (x : Job) : M Log unit :=
  try_catch
    (emit (DelLock x) ;;
     ask (fun l => del_outcome q l x) ;;
     emit (TakeLock x) ;;
     ask (fun l => takeLock_outcome q l x) ;;
     emit (JobMoveToFailed x interrupted) ;;
     ask (fun l => moveToFailed_outcome q l x) ;;
     emit (JobRemove x) ;;
     ask (fun l => remove_outcome q l x))
    (fun e => emit (ConsoleWarn (lit "Failed to remove job") (job_id x) e)).

Definition requeue_request (x : Job) : AddRequest :=
  {| add_data := job_data x; add_jobId := job_id x |}.

Definition unpause (q : Queue) : M Log Response :=
  try_catch
    (emit GetActive ;;
     jobs <- ask (fun _ => getActive_outcome q) ;;
     emit (ConsoleLog (lit "Requeueing") (Some (length jobs))) ;;
     (if 0 <? length jobs
      then
        emit (ConsoleLog (lit "  Removing") (Some (length jobs))) ;;
        promise_all (map (reclaim q) jobs) ;;
        emit (ConsoleLog (lit "  Re-adding") (Some (length jobs))) ;;
        emit (AddBulk (map requeue_request jobs)) ;;
        ask (fun _ => addBulk_outcome q (map requeue_request jobs)) ;;
        emit (ConsoleLog (lit "  Done!") None)
      else ret tt) ;;
     emit Resume ;;
     ask (fun _ => resume_outcome q) ;;
     ret {| status := 200; body := BodyOk |})
    (fun error =>
       emit (ConsoleError (lit "") None error) ;;
       ret {| status := 500; body := BodyError (err_message error) |}).

(** *** GET /clean-before-24h-complete-jobs *)

Definition batchSize : nat := 10.
Definition numberOfBatches : nat := 9.

(** [24 * 60 * 60 * 1000] *)
Definition day_ms : Z := 24 * 60 * 60 * 1000.

(** [job.finishedOn < limit]; a comparison with [undefined] is false. *)
Definition finished_before (job : Job) (limit : Z) : bool :=
  match job_finishedOn job with
  | Some t => (t <? limit)%Z
  | None => false
  end.

(** [completedJobs.filter((job) => job.finishedOn < Date.now() - day_ms)]:
    the clock is read once per element; [i] counts the readings. *)
Fixpoint before24hJobs_of (clock : nat -> Z) (i : nat) (jobs : list Job) : list Job :=
  match jobs with
  | [] => []
  | job :: rest =>
      if finished_before job (clock i - day_ms)%Z
      then job :: before24hJobs_of clock (S i) rest
      else before24hJobs_of clock (S i) rest
  end.

(** The loop that starts the batch requests; the promises are collected,
    settled or not. *)
Fixpoint start_batches (q : Queue) (idx : list nat)
    : M Log (list (Outcome (list Job))) :=
  match idx with
  | [] => ret []
  | i :: idx' =>
      emit (GetJobs [Completed] (i * batchSize) (i * batchSize + batchSize) true) ;;
      p <- (fun l => (Ret (getJobs_outcome q l [Completed] (i * batchSize)
                             (i * batchSize + batchSize) true), l)) ;;
      ps <- start_batches q idx' ;;
      ret (p :: ps)
  end.

(** The removal loop, with its counter. *)
Fixpoint remove_each (q : Queue) (jobs : list Job) (count : nat) : M Log nat :=
  match jobs with
  | [] => ret count
  | job :: rest =>
      count' <- try_catch
                  (emit (JobRemove job) ;;
                   ask (fun l => remove_outcome q l job) ;;
                   ret (Datatypes.S count))
                  (fun jobError =>
                     emit (ConsoleError (lit "Failed to remove job with ID")
                             (Some (job_id job)) jobError) ;;
                     ret count) ;;
      remove_each q rest count'
  end.

(** The handler.  An array is truthy, so [filter(...) || []] is the
    filtered array and the [if (!before24hJobs)] branch is never taken. *)
Definition clean_before_24h_complete_jobs (q : Queue) : M Log Response :=
  try_catch
    (completedJobsPromises <- start_batches q (seq 0 numberOfBatches) ;;
     batches <- ask (fun _ => all_settled completedJobsPromises) ;;
     let completedJobs := concat batches in
     let before24hJobs := before24hJobs_of (Date_now q) 0 completedJobs in
     count <- remove_each q before24hJobs 0 ;;
     ret {| status := 200; body := BodyRemoved count |})
    (fun error =>
       emit (ConsoleError (lit "Failed to clean last 24h complete jobs:") None error) ;;
       ret {| status := 500; body := BodyText (lit "Failed to clean jobs") |}).

(** The jobs on which [remove] was called, in order. *)
Fixpoint removed (l : Log) : list Job :=
  match l with
  | [] => []
  | JobRemove x :: l' => x :: removed l'
  | _ :: l' => removed l'
  end.

(** The four calls of a reclamation, in order. *)
Definition reclaim_calls (x : Job) : list QueueOp :=
  [DelLock x; TakeLock x; JobMoveToFailed x interrupted; JobRemove x].

(** The log of the task of [x]: the four calls, or the calls up to one that
    failed followed by the warning. *)
Definition reclaimed (x : Job) (task : list QueueOp) : Prop :=
  task = reclaim_calls x \/
  exists k e, 1 <= k <= 4 /\
              task = firstn k (reclaim_calls x)
                       ++ [ConsoleWarn (lit "Failed to remove job") (job_id x) e].

(** No call on [x] fails. *)
Definition reclaim_succeeds (q : Queue) (x : Job) : Prop :=
  del_outcome q [DelLock x] x = Ret tt /\
  takeLock_outcome q [DelLock x; TakeLock x] x = Ret tt /\
  moveToFailed_outcome q [DelLock x; TakeLock x; JobMoveToFailed x interrupted] x
    = Ret tt /\
  remove_outcome q (reclaim_calls x) x = Ret tt.

(** The number of workers forked for an exit with the code [c]. *)
Definition replacements (c : option Z) : nat :=
  match c with
  | Some _ => 1
  | None => 0
  end.

End Server.

(* ===================================================================== *)
(** ** The API entry point: the deferred alert *)
(* ===================================================================== *)

Module Admin.

(** The holes of the alert text: the second reading of the waiting count,
    the threshold and [timeout / 60000]. *)
Record Alert := { alert_count : nat; alert_treshold : nat; alert_minutes : N }.

Inductive Body :=
| BodyMessage (msg : jsstring).

Record Response := { status : nat; body : Body }.

(** Calls of the deferred check: the waiting count of the queue, the
    response, the timer, the webhook and the console. *)
Inductive Call :=
| GetWaitingCount
| Respond (r : Response)
| SetTimeout (ms : N)
| Fetch (url : option jsstring) (alert : Alert)
| ConsoleError (msg : jsstring) (e : option Error).

Definition Log := list Call.

(** What the queue, the webhook and the environment answer; the waiting
    count is read more than once and may change. *)
Record Env := {
  SLACK_WEBHOOK_URL : option jsstring;
  getWaitingCount_outcome : Log -> Outcome nat;
  (** [response.ok] of the webhook request, or a rejection *)
  fetch_outcome : Outcome bool
}.

Definition emit (c : Call) : M Log unit :=
  fun l => (Ret tt, l ++ [c]).

Definition treshold : nat := 1.
Definition timeout : N := 60000.

(** [getWaitingJobsCount] *)
Definition getWaitingJobsCount (env : Env) : M Log nat :=
  emit GetWaitingCount ;; ask (getWaitingCount_outcome env).

(** The callback handed to [setTimeout]; nothing catches what it throws. *)
Definition recheck (env : Env) : M Log unit :=
  waitingJobsCount <- getWaitingJobsCount env ;;
  if treshold <=? waitingJobsCount
  then
    emit (Fetch (SLACK_WEBHOOK_URL env)
            {| alert_count := waitingJobsCount; alert_treshold := treshold;
               alert_minutes := (timeout / 60000)%N |}) ;;
    ok <- ask (fun _ => fetch_outcome env) ;;
    if negb ok
    then emit (ConsoleError (lit "Failed to send Slack notification") None)
    else ret tt
  else ret tt.

(** [checkWaitingJobs]: returns the callback it scheduled, if any. *)
Definition checkWaitingJobs (env : Env) : M Log (option (M Log unit)) :=
  try_catch
    (waitingJobsCount <- getWaitingJobsCount env ;;
     if treshold <=? waitingJobsCount
     then emit (SetTimeout timeout) ;; ret (Some (recheck env))
     else ret None)
    (fun error => emit (ConsoleError (lit "") (Some error)) ;; ret None).

(** GET /serverHealthCheck/notify: the handler does nothing at all, not
    even respond, unless the webhook is configured. *)
Definition notify (env : Env) : M Log (option (M Log unit)) :=
  if truthy (SLACK_WEBHOOK_URL env)
  then
    emit (Respond {| status := 200; body := BodyMessage (lit "Check initiated") |}) ;;
    checkWaitingJobs env
  else ret None.

(** The handler followed by the timer firing, when one was set. *)
Definition notify_then_timer (env : Env) : M Log unit :=
  timer <- notify env ;;
  match timer with
  | Some callback => callback
  | None => ret tt
  end.

Definition is_respond (c : Call) : bool :=
  match c with
  | Respond _ => true
  | _ => false
  end.

End Admin.

(* ===================================================================== *)
(** ** Predicates on logs *)
(* ===================================================================== *)

(** The events of a run of progress reports: only publications of at
    most 50 documents. *)
Definition publications (evs : list Event) : Prop :=
  Forall (fun e => exists p part, e = JobProgress p part /\ length part <= 50) evs.

(** What the progress callback logs over a run of reports, from the
    buffer [buf]. *)
Fixpoint progress_events (buf : list Document) (ps : list Progress) : list Event :=
  match ps with
  | [] => []
  | p :: ps' =>
      match currentDocument p with
      | Some d =>
          JobProgress p (slice_last 50 (buf ++ [d]))
            :: progress_events (slice_last 50 (buf ++ [d])) ps'
      | None => progress_events buf ps'
      end
  end.

(** The result of the [catch] branch. *)
Definition failure (e : Error) : RunWebScraperResult :=
  {| success := false; message := err_message e; docs := [] |}.

(** What [saveJob] logs. *)
Definition saveJob_events (w : World) (job : Job) (result : list ResultDoc)
    : list Event :=
  log (snd (saveJob w job result initial)).

(** The options the pipeline of a job is configured with. *)
Definition job_options (w : World) (job : Job) : ProviderOptions :=
  provider_options (pipeline_params w job).

(** The pipeline of the job settles with the documents [found], at least
    one. *)
Definition crawl_found (w : World) (job : Job) (found : list Document) : Prop :=
  setOptions_outcome w (job_options w job) = Ret tt /\
  snd (getDocuments_run w (job_options w job)) = Ret found /\
  found <> [].

(** The filtered set of a job for the documents [docs]. *)
Definition job_filtered (job : Job) (docs : list Document) : list ResultDoc :=
  filterDocs (data_crawlerOptions (job_data job)) docs.

(* ===================================================================== *)
(** ** Sample jobs and worlds *)
(* ===================================================================== *)

Module Sample.

Definition doc (text : string) (source : option string) : Document :=
  {| content := lit text; metadata := {| sourceURL := option_map lit source |} |}.

(** The [i]-th page of a crawl. *)
Definition page (i : nat) : Document :=
  {| content := lit "page"; metadata := {| sourceURL := Some [N.of_nat i] |} |}.

Definition report (i : nat) : Progress :=
  {| current := i; total := 51; status := lit "SCRAPING";
     currentDocument := Some (page i) |}.

Definition job (urls_only : bool) : Job :=
  {| job_id := if urls_only then lit "8" else lit "7";
     job_data := {| data_url := lit "https://a.com,https://b.com";
                    data_mode := lit "scrape";
                    data_crawlerOptions := {| returnOnlyUrls := urls_only |};
                    data_pageOptions := {| page_options := lit "" |};
                    data_team_id := lit "team" |};
     job_finishedOn := None |}.

(** A world in which the pipeline answers [found], the billing gate
    [bill], and nothing else fails. *)
Definition world (found : Outcome (list Document)) (bill : Outcome BillingResult)
    (db : option jsstring) : World :=
  {| setOptions_outcome := fun _ => Ret tt;
     getDocuments_run := fun _ => ([], found);
     billTeam_outcome := fun _ _ => bill;
     USE_DB_AUTHENTICATION := db;
     dbUpdate_outcome := fun _ _ => Ret None;
     moveToCompleted_outcome := fun _ => Ret tt |}.

(** A completed job that finished at [t]. *)
Definition finished (id : string) (t : Z) : Job :=
  {| job_id := lit id; job_data := job_data (job false); job_finishedOn := Some t |}.

(** The time of the sweep, in milliseconds. *)
Definition sweep_time : Z := 1700000000000.

Definition stale : Job := finished "1" (sweep_time - Server.day_ms - 1).
Definition day_old : Job := finished "2" (sweep_time - Server.day_ms).
Definition recent : Job := finished "3" (sweep_time - (23 * 60 + 59) * 60 * 1000).

(** A queue with two active jobs, of which the second cannot be locked,
    and three completed jobs in its first batch. *)
Definition queue : Server.Queue :=
  {| Server.getActive_outcome := Ret [job false; job true];
     Server.del_outcome := fun _ _ => Ret tt;
     Server.takeLock_outcome := fun _ x =>
       if returnOnlyUrls (data_crawlerOptions (job_data x))
       then Throw {| err_message := lit "Missing lock" |}
       else Ret tt;
     Server.moveToFailed_outcome := fun _ _ => Ret tt;
     Server.remove_outcome := fun _ _ => Ret tt;
     Server.addBulk_outcome := fun _ => Ret tt;
     Server.resume_outcome := Ret tt;
     Server.getJobs_outcome := fun _ _ first _ _ =>
       Ret (if first =? 0 then [stale; day_old; recent] else []);
     Server.Date_now := fun _ => sweep_time |}.

Definition accepted : Outcome BillingResult := Ret {| billing_success := true |}.
Definition rejected : Outcome BillingResult := Ret {| billing_success := false |}.

End Sample.

(* ===================================================================== *)
(** ** Further predicates and samples *)
(* ===================================================================== *)

(** [parts.join(sep)], the inverse of [split]. *)
Fixpoint join (sep : N) (parts : list jsstring) : jsstring :=
  match parts with
  | [] => []
  | [p] => p
  | p :: rest => p ++ sep :: join sep rest
  end.

Definition is_progress (e : Event) : bool :=
  match e with
  | JobProgress _ _ => true
  | _ => false
  end.

(** One of the awaited collaborators of the executor rejects with [e]:
    [setOptions], then the pipeline, then the billing gate. *)
Definition rejected (w : World) (job : Job) (e : Error) : Prop :=
  setOptions_outcome w (job_options w job) = Throw e \/
  (setOptions_outcome w (job_options w job) = Ret tt /\
   snd (getDocuments_run w (job_options w job)) = Throw e) \/
  (exists found,
      crawl_found w job found /\
      billTeam_outcome w (data_team_id (job_data job))
        (length (job_filtered job found)) = Throw e).

(** The billing gate answered with success for the documents [found]. *)
Definition billed (w : World) (job : Job) (found : list Document) : Prop :=
  exists b,
    billTeam_outcome w (data_team_id (job_data job))
      (length (job_filtered job found)) = Ret b /\
    billing_success b = true.

(** The exits without a code: workers killed by a signal. *)
Definition killed (exits : list Server.ExitEvent) : nat :=
  length (filter (fun ev => match Server.exit_code ev with
                            | None => true
                            | Some _ => false
                            end) exits).

(** The warning of the task of [x] for the error [e]. *)
Definition reclaim_warning (x : Job) (e : Error) : Server.QueueOp :=
  Server.ConsoleWarn (lit "Failed to remove job") (job_id x) e.

(** The log of the task of [x], call by call: the first call that fails
    is followed by the warning for its error and by nothing else; if none
    fails the log is the four calls. *)
Definition reclaimed_exactly (q : Server.Queue) (x : Job)
    (task : list Server.QueueOp) : Prop :=
  let failed := Server.JobMoveToFailed x {| err_message := lit "interrupted" |} in
  match Server.del_outcome q [Server.DelLock x] x with
  | Throw e => task = [Server.DelLock x; reclaim_warning x e]
  | Ret _ =>
      match Server.takeLock_outcome q [Server.DelLock x; Server.TakeLock x] x with
      | Throw e => task = [Server.DelLock x; Server.TakeLock x; reclaim_warning x e]
      | Ret _ =>
          match Server.moveToFailed_outcome q
                  [Server.DelLock x; Server.TakeLock x; failed] x with
          | Throw e =>
              task = [Server.DelLock x; Server.TakeLock x; failed;
                      reclaim_warning x e]
          | Ret _ =>
              match Server.remove_outcome q
                      [Server.DelLock x; Server.TakeLock x; failed;
                       Server.JobRemove x] x with
              | Throw e =>
                  task = [Server.DelLock x; Server.TakeLock x; failed;
                          Server.JobRemove x; reclaim_warning x e]
              | Ret _ =>
                  task = [Server.DelLock x; Server.TakeLock x; failed;
                          Server.JobRemove x]
              end
          end
      end
  end.

(** What the removal loop logs for a job and the outcome of its
    [remove]: the call, and the error when it failed. *)
Definition removal (xo : Job * Outcome unit) : Server.Log :=
  match snd xo with
  | Ret _ => [Server.JobRemove (fst xo)]
  | Throw e =>
      [Server.JobRemove (fst xo);
       Server.ConsoleError (lit "Failed to remove job with ID")
         (Some (job_id (fst xo))) e]
  end.

Definition removals (xos : list (Job * Outcome unit)) : Server.Log :=
  flat_map removal xos.

(** The number of outcomes that are not failures. *)
Fixpoint successes (os : list (Outcome unit)) : nat :=
  match os with
  | [] => 0
  | Ret _ :: os' => Datatypes.S (successes os')
  | Throw _ :: os' => successes os'
  end.

(** The request for the [i]-th batch of completed jobs. *)
Definition batch_request (i : nat) : Server.QueueOp :=
  Server.GetJobs [Server.Completed] (i * Server.batchSize)
    (i * Server.batchSize + Server.batchSize) true.

(** The answer to the [i]-th batch request, which is asked once the
    requests up to it were sent. *)
Definition batch_outcome (q : Server.Queue) (i : nat) : Outcome (list Job) :=
  Server.getJobs_outcome q (map batch_request (seq 0 (Datatypes.S i)))
    [Server.Completed] (i * Server.batchSize)
    (i * Server.batchSize + Server.batchSize) true.

Definition batch_outcomes (q : Server.Queue) : list (Outcome (list Job)) :=
  map (batch_outcome q) (seq 0 Server.numberOfBatches).

(** The six ways a job execution can go, each with its result and final
    state: [setOptions] rejects, the pipeline rejects, the pipeline finds
    nothing, the billing gate rejects, answers without success, or answers
    with success. *)
Inductive Execution (w : World) (job : Job)
    : Outcome RunWebScraperResult * St -> Prop :=
| ExecSetOptionsThrows (e : Error) :
    setOptions_outcome w (job_options w job) = Throw e ->
    Execution w job
      (Ret (failure e),
       {| partialDocs := [];
          log := [SetOptions (job_options w job);
                  ConsoleError (lit "Error running web scraper") e;
                  MoveToFailed e] |})
| ExecPipelineThrows (e : Error) :
    setOptions_outcome w (job_options w job) = Ret tt ->
    snd (getDocuments_run w (job_options w job)) = Throw e ->
    Execution w job
      (Ret (failure e),
       {| partialDocs :=
            slice_last 50 (emitted (fst (getDocuments_run w (job_options w job))));
          log := SetOptions (job_options w job) :: GetDocuments
                 :: progress_events [] (fst (getDocuments_run w (job_options w job)))
                 ++ [ConsoleError (lit "Error running web scraper") e;
                     MoveToFailed e] |})
| ExecNoPages :
    setOptions_outcome w (job_options w job) = Ret tt ->
    snd (getDocuments_run w (job_options w job)) = Ret [] ->
    Execution w job
      (Ret {| success := true; message := lit "No pages found"; docs := [] |},
       {| partialDocs :=
            slice_last 50 (emitted (fst (getDocuments_run w (job_options w job))));
          log := SetOptions (job_options w job) :: GetDocuments
                 :: progress_events [] (fst (getDocuments_run w (job_options w job))) |})
| ExecBillingThrows (found : list Document) (e : Error) :
    crawl_found w job found ->
    billTeam_outcome w (data_team_id (job_data job))
      (length (job_filtered job found)) = Throw e ->
    Execution w job
      (Ret (failure e),
       {| partialDocs :=
            slice_last 50 (emitted (fst (getDocuments_run w (job_options w job))));
          log := SetOptions (job_options w job) :: GetDocuments
                 :: progress_events [] (fst (getDocuments_run w (job_options w job)))
                 ++ [BillTeam (data_team_id (job_data job))
                       (length (job_filtered job found));
                     ConsoleError (lit "Error running web scraper") e;
                     MoveToFailed e] |})
| ExecBillingRejected (found : list Document) (b : BillingResult) :
    crawl_found w job found ->
    billTeam_outcome w (data_team_id (job_data job))
      (length (job_filtered job found)) = Ret b ->
    billing_success b = false ->
    Execution w job
      (Ret {| success := false; message := billing_failure_message; docs := [] |},
       {| partialDocs :=
            slice_last 50 (emitted (fst (getDocuments_run w (job_options w job))));
          log := SetOptions (job_options w job) :: GetDocuments
                 :: progress_events [] (fst (getDocuments_run w (job_options w job)))
                 ++ [BillTeam (data_team_id (job_data job))
                       (length (job_filtered job found))] |})
| ExecBillingAccepted (found : list Document) (b : BillingResult) :
    crawl_found w job found ->
    billTeam_outcome w (data_team_id (job_data job))
      (length (job_filtered job found)) = Ret b ->
    billing_success b = true ->
    Execution w job
      (Ret {| success := true; message := lit "";
              docs := job_filtered job found |},
       {| partialDocs :=
            slice_last 50 (emitted (fst (getDocuments_run w (job_options w job))));
          log := SetOptions (job_options w job) :: GetDocuments
                 :: progress_events [] (fst (getDocuments_run w (job_options w job)))
                 ++ BillTeam (data_team_id (job_data job))
                      (length (job_filtered job found))
                 :: saveJob_events w job (job_filtered job found) |}).

Module Cases.

(** A world in which the database update reports an error. *)
Definition db_failing : World :=
  {| setOptions_outcome := fun _ => Ret tt;
     getDocuments_run := fun _ => ([], Ret [Sample.page 0]);
     billTeam_outcome := fun _ _ => Sample.accepted;
     USE_DB_AUTHENTICATION := Some (lit "true");
     dbUpdate_outcome := fun _ _ => Ret (Some {| err_message := lit "no row" |});
     moveToCompleted_outcome := fun _ => Ret tt |}.

(** A world whose pipeline reports three pages, the second without a
    document, and then rejects. *)
Definition failing_after_progress : World :=
  {| setOptions_outcome := fun _ => Ret tt;
     getDocuments_run := fun _ =>
       ([Sample.report 0;
         {| current := 1; total := 3; status := lit "SCRAPING";
            currentDocument := None |};
         Sample.report 2],
        Throw {| err_message := lit "timeout" |});
     billTeam_outcome := fun _ _ => Sample.accepted;
     USE_DB_AUTHENTICATION := None;
     dbUpdate_outcome := fun _ _ => Ret None;
     moveToCompleted_outcome := fun _ => Ret tt |}.

(** A job in crawl mode whose URL holds a comma. *)
Definition crawl_job : Job :=
  {| job_id := lit "9";
     job_data := {| data_url := lit "https://a.com/x,y";
                    data_mode := lit "crawl";
                    data_crawlerOptions := {| returnOnlyUrls := false |};
                    data_pageOptions := {| page_options := lit "" |};
                    data_team_id := lit "team" |};
     job_finishedOn := None |}.

(** The sample queue, with [addBulk] rejecting. *)
Definition queue_addBulk_fails : Server.Queue :=
  {| Server.getActive_outcome := Server.getActive_outcome Sample.queue;
     Server.del_outcome := Server.del_outcome Sample.queue;
     Server.takeLock_outcome := Server.takeLock_outcome Sample.queue;
     Server.moveToFailed_outcome := Server.moveToFailed_outcome Sample.queue;
     Server.remove_outcome := Server.remove_outcome Sample.queue;
     Server.addBulk_outcome := fun _ => Throw {| err_message := lit "redis down" |};
     Server.resume_outcome := Ret tt;
     Server.getJobs_outcome := Server.getJobs_outcome Sample.queue;
     Server.Date_now := Server.Date_now Sample.queue |}.

(** A queue with two stale completed jobs, of which the first cannot be
    removed. *)
Definition queue_remove_fails : Server.Queue :=
  {| Server.getActive_outcome := Ret [];
     Server.del_outcome := fun _ _ => Ret tt;
     Server.takeLock_outcome := fun _ _ => Ret tt;
     Server.moveToFailed_outcome := fun _ _ => Ret tt;
     Server.remove_outcome := fun _ x =>
       if JS.eqb (job_id x) (lit "1")
       then Throw {| err_message := lit "locked" |}
       else Ret tt;
     Server.addBulk_outcome := fun _ => Ret tt;
     Server.resume_outcome := Ret tt;
     Server.getJobs_outcome := fun _ _ first _ _ =>
       Ret (if first =? 0
            then [Sample.stale;
                  Sample.finished "4" (Sample.sweep_time - Server.day_ms - 5)]
            else []);
     Server.Date_now := fun _ => Sample.sweep_time |}.

(** An environment with the webhook configured, in which the waiting count
    is [first] at the request and [second] when the timer fires. *)
Definition alerting (first second : nat) : Admin.Env :=
  {| Admin.SLACK_WEBHOOK_URL := Some (lit "https://hooks.example/T");
     Admin.getWaitingCount_outcome := fun l =>
       Ret (if length l <=? 2 then first else second);
     Admin.fetch_outcome := Ret true |}.

End Cases.

(* ===================================================================== *)
(** ** Properties of the string operations *)
(* ===================================================================== *)

Section Strings.

Lemma trimStart_blank (s : jsstring) : blank (trimStart s) = blank s.
Proof.
  induction s as [|c s IH]; simpl; [reflexivity|].
  destruct (isWhiteSpace c) eqn:Hc; simpl.
  - exact IH.
  - rewrite Hc. reflexivity.
Qed.

Lemma trimStart_nil (s : jsstring) : trimStart s = [] <-> blank s = true.
Proof.
  induction s as [|c s IH]; simpl.
  - tauto.
  - destruct (isWhiteSpace c); simpl; [exact IH|].
    split; discriminate.
Qed.

Lemma blank_rev (s : jsstring) : blank (rev s) = blank s.
Proof.
  unfold blank. induction s as [|c s IH]; simpl; [reflexivity|].
  rewrite forallb_app, IH. simpl. rewrite andb_true_r. apply andb_comm.
Qed.

Lemma trim_nil (s : jsstring) : trim s = [] <-> blank s = true.
Proof.
  unfold trim, trimEnd.
  rewrite <- (trimStart_blank s), <- (blank_rev (trimStart s)).
  rewrite <- trimStart_nil.
  split; intros H.
  - apply (f_equal (@rev N)) in H. rewrite rev_involutive in H. exact H.
  - rewrite H. reflexivity.
Qed.

(** The content test of the filter keeps exactly the documents whose
    content has a code unit that is not white space. *)
Lemma has_content_blank (d : Document) : has_content d = negb (blank (content d)).
Proof.
  unfold has_content.
  destruct (blank (content d)) eqn:Hb; simpl.
  - apply trim_nil in Hb. rewrite Hb. reflexivity.
  - destruct (trim (content d)) eqn:Ht; [|reflexivity].
    apply trim_nil in Ht. congruence.
Qed.

Lemma slice_last_length {A} (n : nat) (a : list A) :
  length (slice_last n a) = Nat.min n (length a).
Proof. unfold slice_last. rewrite length_skipn. lia. Qed.

Lemma slice_last_all {A} (n : nat) (a : list A) :
  length a <= n -> slice_last n a = a.
Proof.
  intros H. unfold slice_last.
  replace (length a - n) with 0 by lia. reflexivity.
Qed.

(** Keeping the last [n] of a list and then appending is, after the cut,
    the same as appending first. *)
Lemma slice_last_snoc {A} (n : nat) (a : list A) (x : A) :
  slice_last n (slice_last n a ++ [x]) = slice_last n (a ++ [x]).
Proof.
  unfold slice_last.
  destruct n as [|n].
  { rewrite !Nat.sub_0_r, !skipn_all. reflexivity. }
  remember (Datatypes.S n) as m eqn:Hm.
  rewrite length_app, length_skipn, length_app. simpl.
  destruct (Nat.le_gt_cases (length a) m) as [Hle|Hgt].
  - replace (length a - m) with 0 by lia. simpl.
    replace (length a - 0) with (length a) by lia. reflexivity.
  - rewrite (skipn_app (length a + 1 - m) a).
    replace (length a + 1 - m - length a) with 0 by lia. simpl.
    rewrite (skipn_app (length a - (length a - m) + 1 - m) (skipn (length a - m) a)).
    rewrite length_skipn.
    replace (length a - (length a - m) + 1 - m - (length a - (length a - m)))
      with 0 by lia. simpl.
    rewrite skipn_skipn.
    replace (length a - (length a - m) + 1 - m + (length a - m))
      with (length a + 1 - m) by lia.
    reflexivity.
Qed.

Lemma slice_last_app {A} (n : nat) (l a : list A) :
  slice_last n (slice_last n a ++ l) = slice_last n (a ++ l).
Proof.
  revert a. induction l as [|x l IH]; intros a.
  - rewrite !app_nil_r. unfold slice_last at 1.
    rewrite slice_last_length.
    replace (Nat.min n (length a) - n) with 0 by lia. reflexivity.
  - change (x :: l) with ([x] ++ l). rewrite !app_assoc.
    rewrite <- IH, slice_last_snoc, IH. reflexivity.
Qed.

End Strings.

(* ===================================================================== *)
(** ** The progress buffer *)
(* ===================================================================== *)

Section ProgressBuffer.

(** One report with a document: push, cut to the last 50, publish. *)
Lemma pipeline_inProgress_doc (p : Progress) (d : Document) (st : St) :
  currentDocument p = Some d ->
  pipeline_inProgress p st =
    (Ret tt,
     {| partialDocs := slice_last 50 (partialDocs st ++ [d]);
        log := log st ++ [JobProgress p (slice_last 50 (partialDocs st ++ [d]))] |}).
Proof.
  intros Hd. unfold pipeline_inProgress. rewrite Hd.
  unfold bind, get_partialDocs, set_partialDocs, emit, ret. simpl.
  destruct (50 <? length (partialDocs st ++ [d])) eqn:Hlen; simpl.
  - reflexivity.
  - apply Nat.ltb_ge in Hlen. rewrite (slice_last_all _ Hlen). reflexivity.
Qed.

Lemma pipeline_inProgress_none (p : Progress) (st : St) :
  currentDocument p = None -> pipeline_inProgress p st = (Ret tt, st).
Proof. intros Hd. unfold pipeline_inProgress. rewrite Hd. reflexivity. Qed.

Lemma progress_events_publications (ps : list Progress) :
  forall buf, publications (progress_events buf ps).
Proof.
  induction ps as [|p ps IH]; intros buf; simpl; [constructor|].
  destruct (currentDocument p) as [d|]; [|apply IH].
  constructor; [|apply IH].
  exists p, (slice_last 50 (buf ++ [d])). split; [reflexivity|].
  rewrite slice_last_length. lia.
Qed.

(** The callback never throws; over any run of reports the buffer is the
    last 50 of what it held and what was emitted. *)
Lemma for_each_inProgress (ps : list Progress) :
  forall st, length (partialDocs st) <= 50 ->
  for_each pipeline_inProgress ps st =
    (Ret tt,
     {| partialDocs := slice_last 50 (partialDocs st ++ emitted ps);
        log := log st ++ progress_events (partialDocs st) ps |}).
Proof.
  induction ps as [|p ps IH]; intros st Hst.
  - simpl. rewrite !app_nil_r, (slice_last_all _ Hst).
    destruct st; reflexivity.
  - simpl. unfold bind at 1.
    destruct (currentDocument p) as [d|] eqn:Hd.
    + rewrite (pipeline_inProgress_doc _ _ Hd).
      rewrite IH by (simpl; rewrite slice_last_length; lia).
      simpl. rewrite slice_last_app, <- !app_assoc. reflexivity.
    + rewrite (pipeline_inProgress_none _ _ Hd).
      rewrite (IH st Hst). reflexivity.
Qed.

(** C4. After each progress report is handled the buffer holds at most 50
    documents, namely the last 50 emitted so far in emission order; when a
    report brings a document to a full buffer, the oldest entry is the one
    dropped and the new document is appended. *)
Theorem progress_buffer_keeps_last_50 (ps : list Progress) (p : Progress) :
  let before := snd (for_each pipeline_inProgress ps initial) in
  let after := snd (pipeline_inProgress p before) in
  length (partialDocs after) <= 50 /\
  partialDocs after = slice_last 50 (emitted (ps ++ [p])) /\
  (forall d, currentDocument p = Some d ->
             length (partialDocs before) = 50 ->
             partialDocs after = tl (partialDocs before) ++ [d] /\
             log after = log before ++ [JobProgress p (tl (partialDocs before) ++ [d])]).
Proof.
  intros before after.
  assert (Hrun := for_each_inProgress ps initial ltac:(simpl; lia)).
  assert (Hb : partialDocs before = slice_last 50 (emitted ps)).
  { unfold before. rewrite Hrun. reflexivity. }
  assert (Hlen : length (partialDocs before) <= 50).
  { rewrite Hb, slice_last_length. lia. }
  unfold emitted. rewrite flat_map_app. fold (emitted ps). simpl. rewrite app_nil_r.
  destruct (currentDocument p) as [d|] eqn:Hd.
  - assert (Ha : partialDocs after = slice_last 50 (partialDocs before ++ [d])).
    { unfold after. rewrite (pipeline_inProgress_doc _ _ Hd). reflexivity. }
    repeat split.
    + rewrite Ha, slice_last_length. lia.
    + rewrite Ha, Hb. apply slice_last_snoc.
    + injection H as <-. rewrite Ha. unfold slice_last.
      rewrite length_app, H0. simpl.
      destruct (partialDocs before); [discriminate|reflexivity].
    + injection H as <-. unfold after.
      rewrite (pipeline_inProgress_doc _ _ Hd). simpl. unfold slice_last.
      rewrite length_app, H0. simpl.
      destruct (partialDocs before); [discriminate|reflexivity].
  - assert (Ha : after = before).
    { unfold after. rewrite (pipeline_inProgress_none _ _ Hd). reflexivity. }
    rewrite Ha, app_nil_r. repeat split; try assumption.
    + discriminate.
    + discriminate.
Qed.

End ProgressBuffer.

(* ===================================================================== *)
(** ** Runs of the crawl executor *)
(* ===================================================================== *)

Section Executor.

Variable w : World.
Variable job : Job.

Let o := job_options w job.
Let team := data_team_id (job_data job).

(** [saveJob] catches everything: it returns, and only appends to the
    log. *)
Lemma saveJob_run (result : list ResultDoc) (st : St) :
  saveJob w job result st =
    (Ret tt, {| partialDocs := partialDocs st;
                log := log st ++ saveJob_events w job result |}).
Proof.
  unfold saveJob_events, saveJob, try_catch, bind, job_moveToCompleted,
    try_catch, bind, emit, ask, throw, ret.
  destruct (use_db w); simpl.
  - destruct (dbUpdate_outcome w (job_id job) result) as [[e|]|e]; simpl;
      try (rewrite <- app_assoc; reflexivity).
    destruct (moveToCompleted_outcome w None) as [[]|e']; simpl;
      rewrite <- app_assoc; reflexivity.
  - destruct (moveToCompleted_outcome w (Some result)) as [[]|e']; reflexivity.
Qed.

Let ps := fst (getDocuments_run w o).
Let P := progress_events [] ps.
Let B := slice_last 50 (emitted ps).
Let crawl_error := lit "Error running web scraper".

Ltac run_pipeline :=
  unfold startWebScraperPipeline, runWebScraper, provider_setOptions,
    provider_getDocuments, billTeam;
  unfold bind, try_catch, set_partialDocs, emit, ask, ret; simpl;
  change (provider_options (pipeline_params w job)) with o;
  change (fun progress : Progress => pipeline_inProgress progress)
    with pipeline_inProgress.

Ltac finish_run := simpl; rewrite <- ?app_assoc; simpl; reflexivity.

Ltac run_progress :=
  rewrite for_each_inProgress by (simpl; lia); simpl; fold ps; fold P; fold B.

(** [setOptions] rejects: the error is logged and handed to [onError]. *)
Lemma run_setOptions_throws (e : Error) :
  setOptions_outcome w o = Throw e ->
  startWebScraperPipeline w job initial =
    (Ret (failure e),
     {| partialDocs := [];
        log := [SetOptions o; ConsoleError crawl_error e; MoveToFailed e] |}).
Proof. intros Hset. run_pipeline. rewrite Hset. reflexivity. Qed.

(** The pipeline rejects. *)
Lemma run_pipeline_throws (e : Error) :
  setOptions_outcome w o = Ret tt ->
  snd (getDocuments_run w o) = Throw e ->
  startWebScraperPipeline w job initial =
    (Ret (failure e),
     {| partialDocs := B;
        log := SetOptions o :: GetDocuments :: P
               ++ [ConsoleError crawl_error e; MoveToFailed e] |}).
Proof.
  intros Hset Hdocs. run_pipeline. rewrite Hset. run_progress.
  rewrite Hdocs. finish_run.
Qed.

(** The pipeline settles with no document: nothing more is called. *)
Lemma run_no_pages :
  setOptions_outcome w o = Ret tt ->
  snd (getDocuments_run w o) = Ret [] ->
  startWebScraperPipeline w job initial =
    (Ret {| success := true; message := lit "No pages found"; docs := [] |},
     {| partialDocs := B; log := SetOptions o :: GetDocuments :: P |}).
Proof.
  intros Hset Hdocs. run_pipeline. rewrite Hset. run_progress.
  rewrite Hdocs. finish_run.
Qed.

Section Billed.

Variable found : list Document.
Hypothesis Hset : setOptions_outcome w o = Ret tt.
Hypothesis Hdocs : snd (getDocuments_run w o) = Ret found.
Hypothesis Hsome : found <> [].

Let filteredDocs := job_filtered job found.
Let n := length filteredDocs.

Lemma found_length_nonzero : (length found =? 0) = false.
Proof. destruct found; [congruence|reflexivity]. Qed.

Ltac run_to_billing :=
  run_pipeline; rewrite Hset; run_progress; rewrite Hdocs, found_length_nonzero;
  change (filterDocs (data_crawlerOptions (job_data job)) found) with filteredDocs;
  fold n; fold team.

(** [billTeam] rejects: the [catch] branch runs. *)
Lemma run_billing_throws (e : Error) :
  billTeam_outcome w team n = Throw e ->
  startWebScraperPipeline w job initial =
    (Ret (failure e),
     {| partialDocs := B;
        log := SetOptions o :: GetDocuments :: P
               ++ [BillTeam team n; ConsoleError crawl_error e; MoveToFailed e] |}).
Proof.
  intros Hbill. run_to_billing. rewrite Hbill. finish_run.
Qed.

(** [billTeam] answers without success: the executor returns at once. *)
Lemma run_billing_rejected (b : BillingResult) :
  billTeam_outcome w team n = Ret b ->
  billing_success b = false ->
  startWebScraperPipeline w job initial =
    (Ret {| success := false; message := billing_failure_message; docs := [] |},
     {| partialDocs := B;
        log := SetOptions o :: GetDocuments :: P ++ [BillTeam team n] |}).
Proof.
  intros Hbill Hb. run_to_billing. rewrite Hbill, Hb. finish_run.
Qed.

(** [billTeam] succeeds: [onSuccess] starts [saveJob]. *)
Lemma run_billing_accepted (b : BillingResult) :
  billTeam_outcome w team n = Ret b ->
  billing_success b = true ->
  startWebScraperPipeline w job initial =
    (Ret {| success := true; message := lit ""; docs := filteredDocs |},
     {| partialDocs := B;
        log := SetOptions o :: GetDocuments :: P
               ++ BillTeam team n :: saveJob_events w job filteredDocs |}).
Proof.
  intros Hbill Hb. run_to_billing. rewrite Hbill, Hb. simpl.
  rewrite saveJob_run. finish_run.
Qed.

End Billed.

End Executor.

(* ===================================================================== *)
(** ** Logs of the executor *)
(* ===================================================================== *)

Section Logs.

(** Publications are neither billing calls nor transitions. *)
Lemma publications_neutral (evs : list Event) :
  publications evs ->
  forall ev, In ev evs -> is_billing ev = false /\ is_transition ev = false.
Proof.
  intros Hp ev Hin. unfold publications in Hp. rewrite Forall_forall in Hp.
  destruct (Hp ev Hin) as (p & part & -> & _). split; reflexivity.
Qed.

Lemma progress_events_neutral (buf : list Document) (ps : list Progress) :
  forall ev, In ev (progress_events buf ps) ->
             is_billing ev = false /\ is_transition ev = false.
Proof. apply publications_neutral, progress_events_publications. Qed.

(** What [saveJob] logs, case by case. *)
Lemma saveJob_events_cases (w : World) (job : Job) (result : list ResultDoc) :
  saveJob_events w job result =
    if use_db w
    then DbUpdate (job_id job) result ::
         match dbUpdate_outcome w (job_id job) result with
         | Ret None => [MoveToCompleted None]
         | Ret (Some e) =>
             [ConsoleError (lit "Failed to update job status:")
                {| err_message := err_message e |}]
         | Throw e => [ConsoleError (lit "Failed to update job status:") e]
         end
    else [MoveToCompleted (Some result)].
Proof.
  unfold saveJob_events, saveJob, try_catch, bind, job_moveToCompleted,
    try_catch, bind, emit, ask, throw, ret.
  destruct (use_db w); simpl.
  - destruct (dbUpdate_outcome w (job_id job) result) as [[e|]|e]; simpl;
      try reflexivity.
    destruct (moveToCompleted_outcome w None) as [[]|e']; reflexivity.
  - destruct (moveToCompleted_outcome w (Some result)) as [[]|e']; reflexivity.
Qed.

Lemma saveJob_events_no_billing (w : World) (job : Job) (result : list ResultDoc) :
  forall ev, In ev (saveJob_events w job result) -> is_billing ev = false.
Proof.
  intros ev. rewrite saveJob_events_cases.
  destruct (use_db w); simpl.
  - destruct (dbUpdate_outcome w (job_id job) result) as [[e|]|e]; simpl;
      intuition (subst; reflexivity).
  - intuition (subst; reflexivity).
Qed.

(** A list with a single element satisfying [f] splits around it in one
    way only. *)
Lemma split_at_unique {A} (f : A -> bool) (b0 : A) (T : list A) :
  (forall y, In y T -> f y = false) ->
  forall (pre0 pre post : list A) (x : A),
    (forall y, In y pre0 -> f y = false) ->
    f x = true ->
    pre ++ x :: post = pre0 ++ b0 :: T ->
    pre = pre0 /\ x = b0 /\ post = T.
Proof.
  intros HT. induction pre0 as [|a pre0 IH]; intros pre post x Hpre Hx Heq.
  - destruct pre as [|y pre]; simpl in Heq.
    + injection Heq as -> ->. auto.
    + injection Heq as -> Heq.
      assert (Hin : In x T) by (rewrite <- Heq; apply in_elt).
      rewrite (HT _ Hin) in Hx. discriminate.
  - destruct pre as [|y pre]; simpl in Heq.
    + injection Heq as -> _.
      rewrite (Hpre a (or_introl eq_refl)) in Hx. discriminate.
    + injection Heq as -> Heq.
      destruct (IH pre post x) as (-> & -> & ->); auto.
      intros z Hz. apply Hpre. right. exact Hz.
Qed.

Lemma billing_calls_app (l1 l2 : list Event) :
  billing_calls (l1 ++ l2) = billing_calls l1 + billing_calls l2.
Proof. unfold billing_calls. rewrite filter_app, length_app. reflexivity. Qed.

Lemma billing_calls_none (l : list Event) :
  (forall ev, In ev l -> is_billing ev = false) -> billing_calls l = 0.
Proof.
  intros H. unfold billing_calls.
  induction l as [|e l IH]; simpl; [reflexivity|].
  rewrite (H e (or_introl eq_refl)). apply IH.
  intros ev Hev. apply H. right. exact Hev.
Qed.

End Logs.

(* ===================================================================== *)
(** ** The billing gate *)
(* ===================================================================== *)

Section BillingGate.

Variable w : World.
Variable job : Job.

Let o := job_options w job.
Let team := data_team_id (job_data job).
Let P := progress_events [] (fst (getDocuments_run w o)).
Let run := startWebScraperPipeline w job initial.

(** Either the crawl found documents and the log is the crawl, one billing
    call for the filtered set, and a tail without billing; or it did not
    and the log has no billing call. *)
Lemma run_shape :
  (exists found tail,
      crawl_found w job found /\
      log (snd run) =
        (SetOptions o :: GetDocuments :: P)
          ++ BillTeam team (length (job_filtered job found)) :: tail /\
      (forall ev, In ev tail -> is_billing ev = false))
  \/
  ((forall found, ~ crawl_found w job found) /\
   (forall ev, In ev (log (snd run)) -> is_billing ev = false)).
Proof.
  unfold run, crawl_found. fold o.
  destruct (setOptions_outcome w o) as [[]|e] eqn:Hset.
  2:{ right. split; [intros found (H & _); discriminate|].
      rewrite (run_setOptions_throws w job Hset). simpl.
      intuition (subst; reflexivity). }
  destruct (snd (getDocuments_run w o)) as [found|e] eqn:Hdocs.
  2:{ right. split; [intros found (_ & H & _); discriminate|].
      rewrite (run_pipeline_throws w job Hset Hdocs). simpl.
      intros ev [<-|[<-|Hin]]; try reflexivity.
      apply in_app_or in Hin. destruct Hin as [Hin|Hin].
      - apply (progress_events_neutral _ _ _ Hin).
      - simpl in Hin. intuition (subst; reflexivity). }
  destruct found as [|d found].
  { right. split; [intros found (_ & H & Hne); congruence|].
    rewrite (run_no_pages w job Hset Hdocs). simpl.
    intros ev [<-|[<-|Hin]]; try reflexivity.
    apply (progress_events_neutral _ _ _ Hin). }
  left. exists (d :: found).
  assert (Hne : d :: found <> []) by discriminate.
  destruct (billTeam_outcome w team (length (job_filtered job (d :: found))))
    as [b|e] eqn:Hbill.
  - destruct (billing_success b) eqn:Hb.
    + exists (saveJob_events w job (job_filtered job (d :: found))).
      repeat split; auto.
      * rewrite (run_billing_accepted w job Hset Hdocs Hne Hbill Hb). reflexivity.
      * apply saveJob_events_no_billing.
    + exists []. repeat split; auto.
      * rewrite (run_billing_rejected w job Hset Hdocs Hne Hbill Hb). reflexivity.
      * intros ev [].
  - exists [ConsoleError (lit "Error running web scraper") e; MoveToFailed e].
    repeat split; auto.
    + rewrite (run_billing_throws w job Hset Hdocs Hne Hbill). reflexivity.
    + simpl. intuition (subst; reflexivity).
Qed.

(** The executor always returns a result: every rejection is caught. *)
Lemma run_returns : exists r, fst run = Ret r.
Proof.
  unfold run.
  destruct (setOptions_outcome w o) as [[]|e] eqn:Hset.
  2:{ rewrite (run_setOptions_throws w job Hset). eexists. reflexivity. }
  destruct (snd (getDocuments_run w o)) as [found|e] eqn:Hdocs.
  2:{ rewrite (run_pipeline_throws w job Hset Hdocs). eexists. reflexivity. }
  destruct found as [|d found].
  { rewrite (run_no_pages w job Hset Hdocs). eexists. reflexivity. }
  assert (Hne : d :: found <> []) by discriminate.
  destruct (billTeam_outcome w team (length (job_filtered job (d :: found))))
    as [b|e] eqn:Hbill.
  - destruct (billing_success b) eqn:Hb.
    + rewrite (run_billing_accepted w job Hset Hdocs Hne Hbill Hb).
      eexists. reflexivity.
    + rewrite (run_billing_rejected w job Hset Hdocs Hne Hbill Hb).
      eexists. reflexivity.
  - rewrite (run_billing_throws w job Hset Hdocs Hne Hbill). eexists. reflexivity.
Qed.

(** A crawl that found documents is billed once, for the filtered set. *)
Lemma run_found_billed_once (found : list Document) :
  crawl_found w job found ->
  billing_calls (log (snd run)) = 1 /\
  exists tail,
    log (snd run) =
      (SetOptions o :: GetDocuments :: P)
        ++ BillTeam team (length (job_filtered job found)) :: tail.
Proof.
  intros Hfound.
  destruct run_shape as [(found' & tail & Hfound' & Hlog & Htail)|[Hnone _]];
    [|destruct (Hnone _ Hfound)].
  assert (found' = found) as ->.
  { destruct Hfound as (_ & H1 & _), Hfound' as (_ & H2 & _). congruence. }
  split; [|exists tail; exact Hlog].
  rewrite Hlog, billing_calls_app.
  change (BillTeam team (length (job_filtered job found)) :: tail)
    with ([BillTeam team (length (job_filtered job found))] ++ tail).
  rewrite billing_calls_app, (billing_calls_none tail Htail).
  rewrite (billing_calls_none (SetOptions o :: GetDocuments :: P)); [reflexivity|].
  intros ev [<-|[<-|Hin]]; try reflexivity.
  apply (progress_events_neutral _ _ _ Hin).
Qed.

(** C2, as the code has it.  The billing gate is called at most once in a
    job execution, and exactly once precisely when the crawl settles with at
    least one document (not when it fails or finds nothing).  That call
    comes after the pipeline was run, carries the size of the filtered set,
    precedes every call that moves the job to a terminal state, and is
    followed by no other billing call. *)
Theorem billing_gate_once_after_crawl :
  billing_calls (log (snd run)) <= 1 /\
  (billing_calls (log (snd run)) = 1 <-> exists found, crawl_found w job found) /\
  (forall pre t k post,
      log (snd run) = pre ++ BillTeam t k :: post ->
      exists found,
        crawl_found w job found /\
        t = team /\ k = length (job_filtered job found) /\
        In GetDocuments pre /\
        (forall ev, In ev pre -> is_transition ev = false /\ is_billing ev = false) /\
        (forall ev, In ev post -> is_billing ev = false)).
Proof.
  destruct run_shape as [(found & tail & Hfound & Hlog & Htail)|[Hnone Hlog]].
  - assert (Hpre : forall ev, In ev (SetOptions o :: GetDocuments :: P) ->
                              is_transition ev = false /\ is_billing ev = false).
    { intros ev [<-|[<-|Hin]]; try (split; reflexivity).
      destruct (progress_events_neutral _ _ _ Hin). auto. }
    assert (Hcount : billing_calls (log (snd run)) = 1).
    { rewrite Hlog, billing_calls_app.
      change (BillTeam team (length (job_filtered job found)) :: tail)
        with ([BillTeam team (length (job_filtered job found))] ++ tail).
      rewrite billing_calls_app, (billing_calls_none tail Htail).
      rewrite (billing_calls_none (SetOptions o :: GetDocuments :: P)).
      - reflexivity.
      - intros ev Hin. apply (Hpre ev Hin). }
    split; [lia|]. split.
    + split; [exists found; exact Hfound|intros _; exact Hcount].
    + intros pre t k post Heq. rewrite Hlog in Heq.
      destruct (@split_at_unique _ is_billing
                  (BillTeam team (length (job_filtered job found))) tail Htail
                  (SetOptions o :: GetDocuments :: P)
                  pre post (BillTeam t k)) as (-> & Hx & ->).
      * intros y Hy. apply (Hpre y Hy).
      * reflexivity.
      * symmetry. exact Heq.
      * injection Hx as -> ->. exists found.
        split; [exact Hfound|]. split; [reflexivity|]. split; [reflexivity|].
        split; [right; left; reflexivity|].
        split; [exact Hpre|exact Htail].
  - assert (Hcount : billing_calls (log (snd run)) = 0)
      by (apply billing_calls_none; exact Hlog).
    split; [lia|]. split.
    + split; [intros H; lia|intros (found & Hf); destruct (Hnone _ Hf)].
    + intros pre t k post Heq.
      assert (Hin : In (BillTeam t k) (log (snd run)))
        by (rewrite Heq; apply in_elt).
      apply Hlog in Hin. discriminate.
Qed.

End BillingGate.

Section Claims.

(** C2, as stated, fails: a crawl that finds nothing returns before the
    billing gate, which is then not called at all. *)
Lemma billing_gate_skipped_on_empty_crawl :
  billing_calls
    (log (snd (startWebScraperPipeline
                 (Sample.world (Ret []) Sample.accepted None)
                 (Sample.job false) initial))) <> 1.
Proof. vm_compute. discriminate. Qed.

(** C3. When the pipeline settles with zero documents, [runWebScraper]
    returns [success: true] with the message "No pages found" and an empty
    document set, and calls nothing further. *)
Theorem zero_documents_is_success (w : World) (p : RunWebScraperParams)
    (st st1 st2 : St) :
  provider_setOptions w (provider_options p) st = (Ret tt, st1) ->
  provider_getDocuments w (provider_options p) (inProgress p) st1 = (Ret [], st2) ->
  runWebScraper w p st =
    (Ret {| success := true; message := lit "No pages found"; docs := [] |}, st2).
Proof.
  intros Hset Hdocs. unfold runWebScraper, try_catch.
  unfold bind at 1. cbv zeta. rewrite Hset.
  unfold bind at 1.
  change (fun progress : Progress => inProgress p progress) with (inProgress p).
  rewrite Hdocs. reflexivity.
Qed.

Lemma zero_documents_is_success_witness :
  let w := Sample.world (Ret []) Sample.accepted None in
  let p := pipeline_params w (Sample.job false) in
  runWebScraper w p initial =
    (Ret {| success := true; message := lit "No pages found"; docs := [] |},
     {| partialDocs := [];
        log := [SetOptions (provider_options p); GetDocuments] |}).
Proof.
  intros w p.
  apply (@zero_documents_is_success w p initial
           {| partialDocs := []; log := [SetOptions (provider_options p)] |});
    reflexivity.
Defined.

Lemma billing_gate_once_after_crawl_witness :
  billing_calls
    (log (snd (startWebScraperPipeline
                 (Sample.world (Ret [Sample.page 0]) Sample.accepted None)
                 (Sample.job false) initial))) = 1.
Proof.
  apply (proj2 (proj1 (proj2
           (billing_gate_once_after_crawl
              (Sample.world (Ret [Sample.page 0]) Sample.accepted None)
              (Sample.job false))))).
  exists [Sample.page 0]. repeat split. discriminate.
Defined.

(** C1, as stated, fails: when the billing gate answers without success
    after a crawl that found a document, the executor reports failure but
    no call moves the job to the failed state. *)
Lemma billing_rejection_leaves_job_active :
  let w := Sample.world (Ret [Sample.page 0]) Sample.rejected None in
  let job := Sample.job false in
  let run := startWebScraperPipeline w job initial in
  crawl_found w job [Sample.page 0] /\
  billTeam_outcome w (data_team_id (job_data job)) 1 = Sample.rejected /\
  fst run = Ret {| success := false; message := billing_failure_message;
                   docs := [] |} /\
  ~ (exists e, In (MoveToFailed e) (log (snd run))).
Proof.
  repeat split; try discriminate.
  intros (e & Hin). vm_compute in Hin.
  repeat (destruct Hin as [Hin|Hin]; [discriminate|]). exact Hin.
Qed.

(** C1, as the code has it.  When the crawl finds at least one document
    and the billing gate answers without success, the executor returns
    [success: false] with the fixed billing message and no documents; the
    [catch] branch is not entered (nothing is logged as an error and
    [onError] is not called) and [onSuccess] is not called either, so the
    log ends with the billing call and holds no call that moves the job to
    a terminal state. *)
Theorem billing_rejection_reported (w : World) (job : Job)
    (found : list Document) (b : BillingResult) :
  crawl_found w job found ->
  billTeam_outcome w (data_team_id (job_data job))
    (length (job_filtered job found)) = Ret b ->
  billing_success b = false ->
  let run := startWebScraperPipeline w job initial in
  fst run = Ret {| success := false; message := billing_failure_message;
                   docs := [] |} /\
  (exists pre,
      log (snd run) =
        pre ++ [BillTeam (data_team_id (job_data job))
                  (length (job_filtered job found))]) /\
  (forall ev, In ev (log (snd run)) -> is_transition ev = false) /\
  (forall m e, ~ In (ConsoleError m e) (log (snd run))).
Proof.
  intros (Hset & Hdocs & Hne) Hbill Hb run. unfold run.
  rewrite (run_billing_rejected w job Hset Hdocs Hne Hbill Hb). simpl.
  split; [reflexivity|]. split.
  - eexists (SetOptions _ :: GetDocuments :: _). reflexivity.
  - split.
    + intros ev [<-|[<-|Hin]]; try reflexivity.
      apply in_app_or in Hin. destruct Hin as [Hin|[<-|[]]]; [|reflexivity].
      apply (progress_events_neutral _ _ _ Hin).
    + intros m e [Hin|[Hin|Hin]]; try discriminate.
      apply in_app_or in Hin. destruct Hin as [Hin|[Hin|[]]]; [|discriminate].
      pose proof (progress_events_publications
                    (fst (getDocuments_run w (job_options w job))) []) as Hp.
      unfold publications in Hp. rewrite Forall_forall in Hp.
      destruct (Hp _ Hin) as (p & part & Heq & _). discriminate.
Qed.

Lemma billing_rejection_reported_witness :
  let w := Sample.world (Ret [Sample.page 0]) Sample.rejected None in
  fst (startWebScraperPipeline w (Sample.job false) initial) =
    Ret {| success := false; message := billing_failure_message; docs := [] |}.
Proof.
  intros w.
  refine (proj1 (@billing_rejection_reported w (Sample.job false)
                   [Sample.page 0] {| billing_success := false |} _ _ _)).
  - repeat split. discriminate.
  - reflexivity.
  - reflexivity.
Defined.

(** C5, as stated, fails: with [USE_DB_AUTHENTICATION] set to "true" a
    crawl and a billing that both succeed complete the job with [null], not
    with the filtered set, which goes to the database instead. *)
Lemma completed_with_null_under_db_authentication :
  let w := Sample.world (Ret [Sample.page 0]) Sample.accepted (Some (lit "true")) in
  let job := Sample.job false in
  let run := startWebScraperPipeline w job initial in
  crawl_found w job [Sample.page 0] /\
  billTeam_outcome w (data_team_id (job_data job)) 1 = Sample.accepted /\
  job_filtered job [Sample.page 0] = [RDocument (Sample.page 0)] /\
  In (MoveToCompleted None) (log (snd run)) /\
  ~ In (MoveToCompleted (Some [RDocument (Sample.page 0)])) (log (snd run)).
Proof.
  repeat split; try discriminate.
  - vm_compute. tauto.
  - intros Hin. vm_compute in Hin.
    repeat (destruct Hin as [Hin|Hin]; [discriminate|]). exact Hin.
Qed.

(** C5, as the code has it.  When the crawl finds at least one document
    and the billing gate succeeds, the executor returns success with the
    filtered set and starts [saveJob] on it.  Unless
    [USE_DB_AUTHENTICATION] is "true", the last call is
    [moveToCompleted] with the filtered set as return value.  When it is
    "true", the filtered set is written to the job's database row, and if
    that update reports no error the last call is [moveToCompleted] with
    [null]; the filtered set is then never the return value.  No call moves
    the job to the failed state. *)
Theorem success_completes_job (w : World) (job : Job)
    (found : list Document) (b : BillingResult) :
  crawl_found w job found ->
  billTeam_outcome w (data_team_id (job_data job))
    (length (job_filtered job found)) = Ret b ->
  billing_success b = true ->
  let run := startWebScraperPipeline w job initial in
  let filteredDocs := job_filtered job found in
  fst run = Ret {| success := true; message := lit ""; docs := filteredDocs |} /\
  (use_db w = false ->
   exists pre, log (snd run) = pre ++ [MoveToCompleted (Some filteredDocs)] /\
               forall ev, In ev pre -> is_transition ev = false) /\
  (use_db w = true ->
   In (DbUpdate (job_id job) filteredDocs) (log (snd run)) /\
   (forall r, ~ In (MoveToCompleted (Some r)) (log (snd run))) /\
   (dbUpdate_outcome w (job_id job) filteredDocs = Ret None ->
    exists pre, log (snd run) = pre ++ [MoveToCompleted None] /\
                forall ev, In ev pre -> is_transition ev = false)) /\
  (forall e, ~ In (MoveToFailed e) (log (snd run))).
Proof.
  intros (Hset & Hdocs & Hne) Hbill Hb run filteredDocs. unfold run.
  rewrite (run_billing_accepted w job Hset Hdocs Hne Hbill Hb).
  fold filteredDocs. cbn [fst snd log].
  set (o := job_options w job).
  set (P := progress_events [] (fst (getDocuments_run w o))).
  set (bill := BillTeam (data_team_id (job_data job)) (length filteredDocs)).
  assert (Hpre : forall ev, In ev (SetOptions o :: GetDocuments :: P ++ [bill]) ->
                            is_transition ev = false).
  { intros ev [<-|[<-|Hin]]; try reflexivity.
    apply in_app_or in Hin. destruct Hin as [Hin|[<-|[]]]; [|reflexivity].
    apply (progress_events_neutral _ _ _ Hin). }
  assert (Hlog : forall tail,
             SetOptions o :: GetDocuments :: P ++ bill :: tail =
             (SetOptions o :: GetDocuments :: P ++ [bill]) ++ tail).
  { intros tail. simpl. rewrite <- app_assoc. reflexivity. }
  rewrite Hlog, saveJob_events_cases.
  split; [reflexivity|]. split; [|split].
  - intros Hdb. rewrite Hdb.
    exists (SetOptions o :: GetDocuments :: P ++ [bill]). split; [reflexivity|].
    exact Hpre.
  - intros Hdb. rewrite Hdb. split; [|split].
    + apply in_or_app. right. left. reflexivity.
    + intros r Hin. apply in_app_or in Hin. destruct Hin as [Hin|Hin].
      * apply Hpre in Hin. discriminate.
      * destruct Hin as [Hin|Hin]; [discriminate|].
        destruct (dbUpdate_outcome w (job_id job) filteredDocs) as [[e|]|e];
          simpl in Hin; intuition discriminate.
    + intros Hup. rewrite Hup.
      exists ((SetOptions o :: GetDocuments :: P ++ [bill])
                ++ [DbUpdate (job_id job) filteredDocs]).
      split; [rewrite <- app_assoc; reflexivity|].
      intros ev Hin. apply in_app_or in Hin.
      destruct Hin as [Hin|[<-|[]]]; [apply Hpre; exact Hin|reflexivity].
  - intros e Hin. apply in_app_or in Hin. destruct Hin as [Hin|Hin].
    + apply Hpre in Hin. discriminate.
    + destruct (use_db w); simpl in Hin.
      * destruct Hin as [Hin|Hin]; [discriminate|].
        destruct (dbUpdate_outcome w (job_id job) filteredDocs) as [[e'|]|e'];
          simpl in Hin; intuition discriminate.
      * intuition discriminate.
Qed.

Lemma success_completes_job_witness :
  let w := Sample.world (Ret [Sample.page 0]) Sample.accepted None in
  fst (startWebScraperPipeline w (Sample.job false) initial) =
    Ret {| success := true; message := lit "";
           docs := [RDocument (Sample.page 0)] |}.
Proof.
  intros w.
  refine (proj1 (@success_completes_job w (Sample.job false)
                   [Sample.page 0] {| billing_success := true |} _ _ _)).
  - repeat split. discriminate.
  - reflexivity.
  - reflexivity.
Defined.

(** C6, as stated, fails: in the URL branch a document without a source
    URL is mapped to [undefined], not to a URL. *)
Lemma urls_only_without_source_is_undefined :
  let d := Sample.doc "text" None in
  filterDocs {| returnOnlyUrls := true |} [d] = [RUndefined] /\
  ~ (exists u, filterDocs {| returnOnlyUrls := true |} [d] = [RUrl u]).
Proof.
  split; [reflexivity|]. intros (u & H). discriminate.
Qed.

(** C6, as the code has it.  If the job requested URLs only, the filtered
    set has one entry per document, in order: [{url}] with the source URL
    for a document that has a non-empty one, [undefined] for a document
    that has none.  Otherwise the filtered set is exactly the documents
    whose content is not empty or white space only, in order. *)
Theorem filterDocs_spec (co : CrawlerOptions) (found : list Document) :
  (returnOnlyUrls co = true ->
   length (filterDocs co found) = length found /\
   forall i d, nth_error found i = Some d ->
               nth_error (filterDocs co found) i =
                 Some (match sourceURL (metadata d) with
                       | Some (c :: u) => RUrl (c :: u)
                       | _ => RUndefined
                       end)) /\
  (returnOnlyUrls co = false ->
   filterDocs co found =
     map RDocument (filter (fun d => negb (blank (content d))) found)).
Proof.
  unfold filterDocs. split; intros Hco; rewrite Hco.
  - split; [apply length_map|].
    intros i d Hi. rewrite nth_error_map, Hi. simpl. unfold to_url.
    destruct (sourceURL (metadata d)) as [[|c u]|]; reflexivity.
  - f_equal. apply filter_ext. apply has_content_blank.
Qed.

Lemma filterDocs_spec_witness :
  filterDocs {| returnOnlyUrls := false |}
    [Sample.doc " " (Some "https://a.com"%string); Sample.doc "b" (Some "https://b.com"%string)]
  = [RDocument (Sample.doc "b" (Some "https://b.com"%string))] /\
  nth_error (filterDocs {| returnOnlyUrls := true |}
               [Sample.doc "" (Some "https://a.com"%string); Sample.doc "b" None]) 0
  = Some (RUrl (lit "https://a.com")).
Proof.
  split.
  - exact (proj2 (filterDocs_spec {| returnOnlyUrls := false |}
             [Sample.doc " " (Some "https://a.com"%string);
              Sample.doc "b" (Some "https://b.com"%string)]) eq_refl).
  - exact (proj2 (proj1 (filterDocs_spec {| returnOnlyUrls := true |}
             [Sample.doc "" (Some "https://a.com"%string); Sample.doc "b" None]) eq_refl)
             0 (Sample.doc "" (Some "https://a.com"%string)) eq_refl).
Defined.

(** C10. When [returnOnlyUrls] is set the content test is not applied: the
    filtered set has one entry per pipeline document, the billing gate is
    called once with the number of pipeline documents (blank ones
    included), a document whose source URL is missing or empty contributes
    [undefined] at its position, and on billing success that set is what
    the executor returns. *)
Theorem urls_only_bills_every_document (w : World) (job : Job)
    (found : list Document) :
  returnOnlyUrls (data_crawlerOptions (job_data job)) = true ->
  crawl_found w job found ->
  let run := startWebScraperPipeline w job initial in
  length (job_filtered job found) = length found /\
  billing_calls (log (snd run)) = 1 /\
  (exists pre post,
      log (snd run) =
        pre ++ BillTeam (data_team_id (job_data job)) (length found) :: post) /\
  (forall i d, nth_error found i = Some d ->
               truthy (sourceURL (metadata d)) = false ->
               nth_error (job_filtered job found) i = Some RUndefined) /\
  (forall b, billTeam_outcome w (data_team_id (job_data job)) (length found) = Ret b ->
             billing_success b = true ->
             fst run = Ret {| success := true; message := lit "";
                              docs := job_filtered job found |}).
Proof.
  intros Hco Hfound run.
  assert (Hlen : length (job_filtered job found) = length found).
  { unfold job_filtered, filterDocs. rewrite Hco. apply length_map. }
  destruct (run_found_billed_once Hfound) as (Hcount & tail & Hlog).
  split; [exact Hlen|]. split; [exact Hcount|]. split; [|split].
  - rewrite <- Hlen. eexists. exists tail. exact Hlog.
  - intros i d Hi Hd. unfold job_filtered, filterDocs. rewrite Hco.
    rewrite nth_error_map, Hi. simpl. unfold to_url. rewrite Hd. reflexivity.
  - intros b Hbill Hb. rewrite <- Hlen in Hbill.
    destruct Hfound as (Hset & Hdocs & Hne). unfold run.
    rewrite (run_billing_accepted w job Hset Hdocs Hne Hbill Hb). reflexivity.
Qed.

Lemma urls_only_bills_every_document_witness :
  let w := Sample.world (Ret [Sample.doc "" None; Sample.doc " " (Some "https://b.com"%string)])
             Sample.accepted None in
  fst (startWebScraperPipeline w (Sample.job true) initial) =
    Ret {| success := true; message := lit "";
           docs := [RUndefined; RUrl (lit "https://b.com")] |}.
Proof.
  intros w.
  refine (proj2 (proj2 (proj2 (proj2
            (@urls_only_bills_every_document w (Sample.job true)
               [Sample.doc "" None; Sample.doc " " (Some "https://b.com"%string)]
               eq_refl _))))
            {| billing_success := true |} eq_refl eq_refl).
  repeat split. discriminate.
Defined.

Lemma progress_buffer_keeps_last_50_witness :
  partialDocs
    (snd (pipeline_inProgress (Sample.report 50)
            (snd (for_each pipeline_inProgress
                    (map Sample.report (seq 0 50)) initial))))
  = map Sample.page (seq 1 50).
Proof.
  destruct (progress_buffer_keeps_last_50
              (map Sample.report (seq 0 50)) (Sample.report 50)) as (_ & _ & H).
  destruct (H (Sample.page 50) eq_refl eq_refl) as [-> _]. reflexivity.
Defined.

End Claims.

(* ===================================================================== *)
(** ** The supervisor *)
(* ===================================================================== *)

Section Supervisor.

Import Server.

Lemma forks_app (a b : list ClusterOp) : forks (a ++ b) = forks a + forks b.
Proof. unfold forks. rewrite filter_app, length_app. reflexivity. Qed.

(** C9, as stated, fails: for a worker killed by a signal the exit code is
    [null] and the handler forks nothing. *)
Lemma killed_worker_is_not_replaced :
  ~ In Fork (on_exit {| worker_pid := 4242; exit_code := None;
                        exit_signal := Some (lit "SIGKILL") |}).
Proof. simpl. tauto. Qed.

(** C9, as the code has it.  On an exit event whose exit code is not [null]
    the handler forks exactly one replacement, at once; on an exit event
    whose code is [null] it forks none.  Over a run, the master has forked
    the initial pool plus one worker per exit with a code. *)
Theorem replacement_forked_on_exit_code (ENV : option jsstring) (cpus : nat)
    (exits : list ExitEvent) (ev : ExitEvent) :
  on_exit ev =
    match exit_code ev with
    | Some _ => [LogWorkerExited (worker_pid ev); LogStartingNewWorker; Fork]
    | None => []
    end /\
  forks (on_exit ev) = replacements (exit_code ev) /\
  forks (master ENV cpus (exits ++ [ev])) =
    forks (master ENV cpus exits) + replacements (exit_code ev) /\
  forks (master ENV cpus exits) =
    numCPUs ENV cpus + list_sum (map (fun e => replacements (exit_code e)) exits).
Proof.
  assert (Hone : forall e, forks (on_exit e) = replacements (exit_code e)).
  { intros e. unfold on_exit. destruct (exit_code e); reflexivity. }
  split; [reflexivity|]. split; [apply Hone|]. split.
  - unfold master. rewrite flat_map_app, !forks_app. simpl.
    rewrite app_nil_r, Hone. lia.
  - unfold master, master_start. rewrite forks_app.
    f_equal.
    + unfold forks. simpl. induction (numCPUs ENV cpus) as [|n IH]; simpl; auto.
    + induction exits as [|e exits IH]; simpl; [reflexivity|].
      rewrite forks_app, Hone, IH. reflexivity.
Qed.

End Supervisor.

(* ===================================================================== *)
(** ** Reclaim and requeue *)
(* ===================================================================== *)

Section Recovery.

Import Server.

Variable q : Queue.

(** The task of a job never rejects: its log is the four calls, or the
    calls up to the failing one and the warning. *)
Lemma reclaim_run (x : Job) :
  exists task,
    reclaim q x [] = (Ret tt, task) /\
    reclaimed x task /\
    (reclaim_succeeds q x -> task = reclaim_calls x) /\
    (exists rest, task = DelLock x :: rest).
Proof.
  unfold reclaim, reclaim_succeeds, reclaimed, reclaim_calls, try_catch, bind,
    emit, ask. simpl.
  destruct (del_outcome q [DelLock x] x) as [[]|e] eqn:H1.
  2:{ eexists. split; [reflexivity|]. repeat split.
      - right. exists 1, e. split; [lia|reflexivity].
      - intros (H & _). discriminate.
      - eexists. reflexivity. }
  destruct (takeLock_outcome q [DelLock x; TakeLock x] x) as [[]|e] eqn:H2.
  2:{ eexists. split; [reflexivity|]. repeat split.
      - right. exists 2, e. split; [lia|reflexivity].
      - intros (_ & H & _). discriminate.
      - eexists. reflexivity. }
  destruct (moveToFailed_outcome q
              [DelLock x; TakeLock x; JobMoveToFailed x interrupted] x)
    as [[]|e] eqn:H3.
  2:{ eexists. split; [reflexivity|]. repeat split.
      - right. exists 3, e. split; [lia|reflexivity].
      - intros (_ & _ & H & _). discriminate.
      - eexists. reflexivity. }
  destruct (remove_outcome q
              [DelLock x; TakeLock x; JobMoveToFailed x interrupted; JobRemove x] x)
    as [[]|e] eqn:H4.
  2:{ eexists. split; [reflexivity|]. repeat split.
      - right. exists 4, e. split; [lia|reflexivity].
      - intros (_ & _ & _ & H). discriminate.
      - eexists. reflexivity. }
  eexists. split; [reflexivity|]. repeat split.
  - left. reflexivity.
  - eexists. reflexivity.
Qed.

(** The tasks of all jobs run, each to its end, whatever the others do. *)
Lemma promise_all_reclaim (jobs : list Job) (l : Log) :
  exists tasks,
    promise_all (map (reclaim q) jobs) l = (Ret tt, l ++ [PromiseAll tasks]) /\
    Forall2 (fun x task =>
               reclaimed x task /\
               (reclaim_succeeds q x -> task = reclaim_calls x) /\
               (exists rest, task = DelLock x :: rest)) jobs tasks.
Proof.
  unfold promise_all.
  exists (map snd (map (fun t => t []) (map (reclaim q) jobs))).
  split.
  - f_equal.
    induction jobs as [|x jobs IH]; simpl; [reflexivity|].
    destruct (reclaim_run x) as (task & -> & _). simpl.
    destruct (all_settled _); [reflexivity|discriminate].
  - induction jobs as [|x jobs IH]; simpl; constructor; [|exact IH].
    destruct (reclaim_run x) as (task & -> & H). exact H.
Qed.

(** The task of a job, call by call. *)
Lemma reclaim_task_exact (x : Job) :
  exists task, reclaim q x [] = (Ret tt, task) /\ reclaimed_exactly q x task.
Proof.
  unfold reclaim, reclaimed_exactly, reclaim_warning, interrupted, try_catch,
    bind, emit, ask.
  simpl.
  destruct (del_outcome q [DelLock x] x) as [[]|e];
    [|eexists; split; reflexivity].
  destruct (takeLock_outcome q [DelLock x; TakeLock x] x) as [[]|e];
    [|eexists; split; reflexivity].
  destruct (moveToFailed_outcome q
              [DelLock x; TakeLock x;
               JobMoveToFailed x {| err_message := lit "interrupted" |}] x)
    as [[]|e]; [|eexists; split; reflexivity].
  destruct (remove_outcome q
              [DelLock x; TakeLock x;
               JobMoveToFailed x {| err_message := lit "interrupted" |};
               JobRemove x] x)
    as [[]|e]; eexists; split; reflexivity.
Qed.

Lemma promise_all_reclaim_exact (jobs : list Job) (l : Log) :
  exists tasks,
    promise_all (map (reclaim q) jobs) l = (Ret tt, l ++ [PromiseAll tasks]) /\
    Forall2 (fun x task =>
               reclaimed x task /\
               (reclaim_succeeds q x -> task = reclaim_calls x) /\
               (exists rest, task = DelLock x :: rest) /\
               reclaimed_exactly q x task) jobs tasks.
Proof.
  destruct (promise_all_reclaim jobs l) as (tasks & Hall & Htasks).
  exists tasks. split; [exact Hall|].
  unfold promise_all in Hall.
  assert (Heq : tasks = map snd (map (fun t => t []) (map (reclaim q) jobs))).
  { injection Hall as _ Hl. apply app_inv_head in Hl. injection Hl as Hl.
    symmetry. exact Hl. }
  clear Hall. subst tasks.
  induction jobs as [|x jobs IH]; simpl in *; [constructor|].
  inversion Htasks as [|? ? ? ? (H1 & H2 & H3) Hrest]; subst.
  constructor; [|apply IH; exact Hrest].
  split; [exact H1|]. split; [exact H2|]. split; [exact H3|].
  destruct (reclaim_task_exact x) as (task & -> & Hexact). exact Hexact.
Qed.

(** C7. Over the active jobs the queue returns, the handler runs one task
    per job: it deletes the job's lock, takes the lock, moves the job to
    failed with the reason "interrupted" and removes it.  The first of
    these calls that fails ends the task of that job: the warning for its
    error is logged and the remaining calls on that job are skipped.  The
    tasks of the other jobs are not affected, and one [addBulk] then
    submits, for every job of the list, a job with the same data and the
    same id. *)
Theorem unpause_reclaims_and_requeues (jobs : list Job) :
  getActive_outcome q = Ret jobs ->
  jobs <> [] ->
  exists tasks tail,
    snd (unpause q []) =
      [GetActive;
       ConsoleLog (lit "Requeueing") (Some (length jobs));
       ConsoleLog (lit "  Removing") (Some (length jobs));
       PromiseAll tasks;
       ConsoleLog (lit "  Re-adding") (Some (length jobs));
       AddBulk (map requeue_request jobs)] ++ tail /\
    Forall2 (fun x task =>
               reclaimed x task /\
               (reclaim_succeeds q x -> task = reclaim_calls x) /\
               (exists rest, task = DelLock x :: rest) /\
               reclaimed_exactly q x task) jobs tasks /\
    (forall x, In x jobs ->
               In {| add_data := job_data x; add_jobId := job_id x |}
                  (map requeue_request jobs)).
Proof.
  intros Hactive Hne.
  destruct (promise_all_reclaim_exact jobs
              [GetActive;
               ConsoleLog (lit "Requeueing") (Some (length jobs));
               ConsoleLog (lit "  Removing") (Some (length jobs))])
    as (tasks & Hall & Htasks).
  assert (Hlen : (0 <? length jobs) = true).
  { destruct jobs; [congruence|reflexivity]. }
  exists tasks.
  unfold unpause, try_catch.
  unfold bind at 1. unfold emit at 1. cbn [app].
  unfold bind at 1. unfold ask at 1. rewrite Hactive.
  unfold bind at 1. unfold emit at 1. cbn [app].
  unfold bind at 1. rewrite Hlen.
  unfold bind at 1. unfold emit at 1. cbn [app].
  unfold bind at 1. rewrite Hall. cbn [app].
  unfold bind at 1. unfold emit at 1. cbn [app].
  unfold bind at 1. unfold emit at 1. cbn [app].
  unfold bind, emit, ask, ret.
  destruct (addBulk_outcome q (map requeue_request jobs)) as [[]|e].
  - destruct (resume_outcome q) as [[]|e]; cbn [app snd];
      eexists; (split; [reflexivity|]); (split; [exact Htasks|]);
      intros x Hx; apply (in_map requeue_request _ _ Hx).
  - cbn [app snd].
    eexists; (split; [reflexivity|]); (split; [exact Htasks|]);
      intros x Hx; apply (in_map requeue_request _ _ Hx).
Qed.

End Recovery.

Lemma unpause_reclaims_and_requeues_witness :
  exists tasks tail,
    snd (Server.unpause Sample.queue []) =
      [Server.GetActive;
       Server.ConsoleLog (lit "Requeueing") (Some 2);
       Server.ConsoleLog (lit "  Removing") (Some 2);
       Server.PromiseAll tasks;
       Server.ConsoleLog (lit "  Re-adding") (Some 2);
       Server.AddBulk (map Server.requeue_request [Sample.job false; Sample.job true])]
      ++ tail /\
    tasks =
      [Server.reclaim_calls (Sample.job false);
       [Server.DelLock (Sample.job true); Server.TakeLock (Sample.job true);
        Server.ConsoleWarn (lit "Failed to remove job") (job_id (Sample.job true))
          {| err_message := lit "Missing lock" |}]].
Proof.
  destruct (@unpause_reclaims_and_requeues Sample.queue
              [Sample.job false; Sample.job true] eq_refl
              ltac:(discriminate)) as (tasks & tail & Hlog & _).
  exists tasks, tail. split; [exact Hlog|].
  vm_compute in Hlog. injection Hlog as Htasks _. symmetry. exact Htasks.
Defined.

(* ===================================================================== *)
(** ** The retention sweep *)
(* ===================================================================== *)

Section Retention.

Import Server.

Variable q : Queue.

Lemma removed_app (a b : Log) : removed (a ++ b) = removed a ++ removed b.
Proof.
  induction a as [|op a IH]; simpl; [reflexivity|].
  destruct op; simpl; rewrite IH; reflexivity.
Qed.

Lemma removed_In (x : Job) (l : Log) : In (JobRemove x) l <-> In x (removed l).
Proof.
  induction l as [|op l IH]; simpl; [tauto|].
  destruct op; simpl; rewrite <- IH;
    try (split; [intros [H|H]; [discriminate|exact H]|intros H; right; exact H]).
  split; (intros [H|H]; [left; congruence|right; exact H]).
Qed.

(** A job the filter keeps finished more than a day before one of the
    readings of the clock. *)
Lemma before24hJobs_In (clock : nat -> Z) (jobs : list Job) (x : Job) :
  forall i, In x (before24hJobs_of clock i jobs) ->
            In x jobs /\
            exists k t, job_finishedOn x = Some t /\ (t < clock k - day_ms)%Z.
Proof.
  induction jobs as [|job jobs IH]; intros i Hin; simpl in Hin; [destruct Hin|].
  destruct (finished_before job (clock i - day_ms)) eqn:Hb.
  - destruct Hin as [<-|Hin].
    + split; [left; reflexivity|].
      unfold finished_before in Hb.
      destruct (job_finishedOn job) as [t|]; [|discriminate].
      exists i, t. split; [reflexivity|]. apply Z.ltb_lt. exact Hb.
    + destruct (IH _ Hin) as (H1 & H2). split; [right; exact H1|exact H2].
  - destruct (IH _ Hin) as (H1 & H2). split; [right; exact H1|exact H2].
Qed.

(** The batch requests: nine calls for completed jobs, and nothing else. *)
Lemma start_batches_run (idx : list nat) :
  forall l, exists rs evs,
    start_batches q idx l = (Ret rs, l ++ evs) /\
    removed evs = [] /\
    Forall (fun r => exists l' i,
                In i idx /\
                r = getJobs_outcome q l' [Completed] (i * batchSize)
                      (i * batchSize + batchSize) true) rs.
Proof.
  induction idx as [|i idx IH]; intros l.
  - exists [], []. simpl. rewrite app_nil_r. repeat split. constructor.
  - simpl. unfold bind at 1. unfold emit at 1.
    unfold bind at 1.
    set (l1 := l ++ [GetJobs [Completed] (i * batchSize)
                       (i * batchSize + batchSize) true]).
    destruct (IH l1) as (rs & evs & Hrun & Hrem & Hrs).
    unfold bind at 1. rewrite Hrun. unfold ret.
    exists (getJobs_outcome q l1 [Completed] (i * batchSize)
              (i * batchSize + batchSize) true :: rs).
    exists (GetJobs [Completed] (i * batchSize) (i * batchSize + batchSize) true
              :: evs).
    split; [unfold l1; rewrite <- app_assoc; reflexivity|].
    split; [simpl; exact Hrem|].
    constructor.
    + exists l1, i. split; [left; reflexivity|reflexivity].
    + eapply Forall_impl; [|exact Hrs].
      intros r (l' & k & Hk & Hr). exists l', k. split; [right; exact Hk|exact Hr].
Qed.

(** The removal loop calls [remove] on each job of the list, in order,
    and counts the calls that did not fail. *)
Lemma remove_each_run (jobs : list Job) :
  forall count l, exists n evs,
    remove_each q jobs count l = (Ret n, l ++ evs) /\
    removed evs = jobs /\
    count <= n <= count + length jobs.
Proof.
  induction jobs as [|job jobs IH]; intros count l.
  - exists count, []. simpl. rewrite app_nil_r. repeat split; lia.
  - simpl. unfold bind at 1. unfold try_catch, bind, emit, ask, ret.
    destruct (remove_outcome q (l ++ [JobRemove job]) job) as [[]|e].
    + destruct (IH (Datatypes.S count) (l ++ [JobRemove job]))
        as (n & evs & Hrun & Hrem & Hn).
      exists n, (JobRemove job :: evs). rewrite Hrun.
      split; [rewrite <- app_assoc; reflexivity|].
      split; [simpl; rewrite Hrem; reflexivity|lia].
    + destruct (IH count
                  ((l ++ [JobRemove job])
                     ++ [ConsoleError (lit "Failed to remove job with ID")
                           (Some (job_id job)) e]))
        as (n & evs & Hrun & Hrem & Hn).
      exists n, (JobRemove job
                   :: ConsoleError (lit "Failed to remove job with ID")
                        (Some (job_id job)) e :: evs).
      rewrite Hrun.
      split; [rewrite <- !app_assoc; reflexivity|].
      split; [simpl; rewrite Hrem; reflexivity|lia].
Qed.

Lemma all_settled_In {A} (rs : list (Outcome A)) (xs : list A) (x : A) :
  all_settled rs = Ret xs -> In x xs -> In (Ret x) rs.
Proof.
  revert xs. induction rs as [|r rs IH]; intros xs Hall Hin; simpl in Hall.
  - injection Hall as <-. destruct Hin.
  - destruct r as [a|e]; [|discriminate].
    destruct (all_settled rs) as [l|e]; [|discriminate].
    injection Hall as <-. destruct Hin as [<-|Hin].
    + left. reflexivity.
    + right. apply (IH l eq_refl Hin).
Qed.

(** The jobs the sweep calls [remove] on: those of the nine batches that
    the filter keeps, when every batch request resolves; none otherwise. *)
Lemma sweep_removed :
  exists rs,
    Forall (fun r => exists l' i,
                In i (seq 0 numberOfBatches) /\
                r = getJobs_outcome q l' [Completed] (i * batchSize)
                      (i * batchSize + batchSize) true) rs /\
    removed (snd (clean_before_24h_complete_jobs q [])) =
      match all_settled rs with
      | Ret batches => before24hJobs_of (Date_now q) 0 (concat batches)
      | Throw _ => []
      end.
Proof.
  destruct (start_batches_run (seq 0 numberOfBatches) [])
    as (rs & evs & Hrun & Hrem & Hrs).
  exists rs. split; [exact Hrs|].
  unfold clean_before_24h_complete_jobs, try_catch.
  unfold bind at 1. rewrite Hrun.
  unfold bind at 1. unfold ask at 1.
  destruct (all_settled rs) as [batches|e].
  - unfold bind at 1.
    destruct (remove_each_run (before24hJobs_of (Date_now q) 0 (concat batches)) 0
                ([] ++ evs)) as (n & evs' & Hrun' & Hrem' & _).
    rewrite Hrun'. unfold ret. cbn [snd app].
    rewrite removed_app, Hrem, Hrem'. reflexivity.
  - unfold emit, bind, ret. cbn [snd app].
    rewrite removed_app, Hrem. reflexivity.
Qed.

(** C8. Every job the sweep removes came from a batch of completed jobs
    and has a finish time strictly more than 24 hours before the reading of
    the clock it was compared with; a job whose finish time is within 24
    hours of every reading (exactly 24 hours included) is never removed. *)
Theorem sweep_removes_only_older_than_24h :
  (forall x, In (JobRemove x) (snd (clean_before_24h_complete_jobs q [])) ->
      (exists k t, job_finishedOn x = Some t /\ (t < Date_now q k - day_ms)%Z) /\
      (exists l' i batch,
          i < numberOfBatches /\
          getJobs_outcome q l' [Completed] (i * batchSize)
            (i * batchSize + batchSize) true = Ret batch /\
          In x batch)) /\
  (forall x t, job_finishedOn x = Some t ->
               (forall k, (Date_now q k - day_ms <= t)%Z) ->
               ~ In (JobRemove x) (snd (clean_before_24h_complete_jobs q []))).
Proof.
  destruct sweep_removed as (rs & Hrs & Hrem).
  assert (Hold : forall x,
             In (JobRemove x) (snd (clean_before_24h_complete_jobs q [])) ->
             exists batches, all_settled rs = Ret batches /\
                             In x (before24hJobs_of (Date_now q) 0 (concat batches))).
  { intros x Hin. apply removed_In in Hin. rewrite Hrem in Hin.
    destruct (all_settled rs) as [batches|e]; [|destruct Hin].
    exists batches. split; [reflexivity|exact Hin]. }
  split.
  - intros x Hin. destruct (Hold x Hin) as (batches & Hall & Hx).
    destruct (before24hJobs_In _ _ _ _ Hx) as (Hcat & Hage).
    split; [exact Hage|].
    apply in_concat in Hcat. destruct Hcat as (batch & Hbatch & Hxb).
    pose proof (all_settled_In _ _ Hall Hbatch) as Hr.
    rewrite Forall_forall in Hrs.
    destruct (Hrs _ Hr) as (l' & i & Hi & Heq).
    exists l', i, batch. apply in_seq in Hi.
    split; [lia|]. split; [symmetry; exact Heq|exact Hxb].
  - intros x t Ht Hfresh Hin. destruct (Hold x Hin) as (batches & _ & Hx).
    destruct (before24hJobs_In _ _ _ _ Hx) as (_ & k & t' & Ht' & Hlt).
    rewrite Ht in Ht'. injection Ht' as <-.
    specialize (Hfresh k). lia.
Qed.

End Retention.

Lemma sweep_removes_only_older_than_24h_witness :
  In (Server.JobRemove Sample.stale)
     (snd (Server.clean_before_24h_complete_jobs Sample.queue [])) /\
  ~ In (Server.JobRemove Sample.recent)
      (snd (Server.clean_before_24h_complete_jobs Sample.queue [])) /\
  ~ In (Server.JobRemove Sample.day_old)
      (snd (Server.clean_before_24h_complete_jobs Sample.queue [])).
Proof.
  split; [vm_compute; tauto|]. split.
  - apply (proj2 (sweep_removes_only_older_than_24h Sample.queue)
             Sample.recent _ eq_refl).
    intros k. vm_compute. discriminate.
  - apply (proj2 (sweep_removes_only_older_than_24h Sample.queue)
             Sample.day_old _ eq_refl).
    intros k. vm_compute. discriminate.
Defined.

(* ===================================================================== *)
(** ** Scenarios *)
(* ===================================================================== *)

Section Scenarios.

Example split_two_urls :
  split 44 (lit "https://a.com,https://b.com")
  = [lit "https://a.com"; lit "https://b.com"].
Proof. reflexivity. Qed.

Example split_trailing_comma : split 44 (lit "a,") = [lit "a"; lit ""].
Proof. reflexivity. Qed.

Example trim_strips_both_ends :
  trim ([32; 9; 160] ++ lit "a b" ++ [10; 8232; 65279])%N = lit "a b".
Proof. reflexivity. Qed.

(** A page with content is crawled, billed for one document and the job is
    completed with it. *)
Example single_page_completes :
  let w := Sample.world (Ret [Sample.page 0]) Sample.accepted None in
  let job := Sample.job false in
  startWebScraperPipeline w job initial =
    (Ret {| success := true; message := lit "";
            docs := [RDocument (Sample.page 0)] |},
     {| partialDocs := [];
        log := [SetOptions (job_options w job); GetDocuments;
                BillTeam (lit "team") 1;
                MoveToCompleted (Some [RDocument (Sample.page 0)])] |}).
Proof. reflexivity. Qed.

(** Two comma-separated URLs in a mode other than "crawl", URLs only: the
    pipeline is given both, and the result is the two source URLs. *)
Example two_urls_only :
  let a := Sample.doc "A" (Some "https://a.com"%string) in
  let b := Sample.doc "B" (Some "https://b.com"%string) in
  let w := Sample.world (Ret [a; b]) Sample.accepted None in
  let job := Sample.job true in
  po_urls (job_options w job) = [lit "https://a.com"; lit "https://b.com"] /\
  po_bullJobId (job_options w job) = None /\
  fst (startWebScraperPipeline w job initial) =
    Ret {| success := true; message := lit "";
           docs := [RUrl (lit "https://a.com"); RUrl (lit "https://b.com")] |}.
Proof. repeat split. Qed.

(** A rejecting pipeline fails the job with the error. *)
Example pipeline_error_fails_job :
  let e := {| err_message := lit "timeout" |} in
  let w := Sample.world (Throw e) Sample.accepted None in
  let job := Sample.job false in
  startWebScraperPipeline w job initial =
    (Ret {| success := false; message := lit "timeout"; docs := [] |},
     {| partialDocs := [];
        log := [SetOptions (job_options w job); GetDocuments;
                ConsoleError (lit "Error running web scraper") e;
                MoveToFailed e] |}).
Proof. reflexivity. Qed.

(** The sweep removes the job that finished a day and a millisecond ago
    and keeps the two others. *)
Example sweep_sample :
  Server.removed (snd (Server.clean_before_24h_complete_jobs Sample.queue []))
  = [Sample.stale] /\
  fst (Server.clean_before_24h_complete_jobs Sample.queue [])
  = Ret {| Server.status := 200; Server.body := Server.BodyRemoved 1 |}.
Proof. split; reflexivity. Qed.

(** The pool of a local run is two workers; a crash is replaced, a kill is
    not. *)
Example master_sample :
  Server.forks
    (Server.master (Some (lit "local")) 8
       [{| Server.worker_pid := 11; Server.exit_code := Some 1%Z;
           Server.exit_signal := None |};
        {| Server.worker_pid := 12; Server.exit_code := None;
           Server.exit_signal := Some (lit "SIGKILL") |}]) = 3.
Proof. reflexivity. Qed.

End Scenarios.

(* ===================================================================== *)
(** ** Every execution of a job *)
(* ===================================================================== *)

Section Executions.

Variable w : World.
Variable job : Job.

(** The executor follows one of the six courses. *)
Lemma run_cases : Execution w job (startWebScraperPipeline w job initial).
Proof.
  destruct (setOptions_outcome w (job_options w job)) as [[]|e] eqn:Hset.
  2:{ rewrite (run_setOptions_throws w job Hset). constructor. exact Hset. }
  destruct (snd (getDocuments_run w (job_options w job))) as [found|e] eqn:Hdocs.
  2:{ rewrite (run_pipeline_throws w job Hset Hdocs). constructor; assumption. }
  destruct found as [|d found].
  { rewrite (run_no_pages w job Hset Hdocs). constructor; assumption. }
  assert (Hne : d :: found <> []) by discriminate.
  assert (Hfound : crawl_found w job (d :: found)) by (repeat split; assumption).
  destruct (billTeam_outcome w (data_team_id (job_data job))
              (length (job_filtered job (d :: found)))) as [b|e] eqn:Hbill.
  - destruct (billing_success b) eqn:Hb.
    + rewrite (run_billing_accepted w job Hset Hdocs Hne Hbill Hb).
      apply ExecBillingAccepted with (b := b); assumption.
    + rewrite (run_billing_rejected w job Hset Hdocs Hne Hbill Hb).
      apply ExecBillingRejected with (b := b); assumption.
  - rewrite (run_billing_throws w job Hset Hdocs Hne Hbill).
    apply ExecBillingThrows; assumption.
Qed.

Lemma crawl_found_unique (found found' : list Document) :
  crawl_found w job found -> crawl_found w job found' -> found' = found.
Proof. intros (_ & H1 & _) (_ & H2 & _). congruence. Qed.

Lemma progress_events_no_transition (buf : list Document) (ps : list Progress) :
  filter is_transition (progress_events buf ps) = [].
Proof.
  revert buf. induction ps as [|p ps IH]; intros buf; simpl; [reflexivity|].
  destruct (currentDocument p); simpl; apply IH.
Qed.

Lemma progress_events_all_progress (buf : list Document) (ps : list Progress) :
  filter is_progress (progress_events buf ps) = progress_events buf ps.
Proof.
  revert buf. induction ps as [|p ps IH]; intros buf; simpl; [reflexivity|].
  destruct (currentDocument p); simpl; rewrite IH; reflexivity.
Qed.

Lemma progress_events_length (buf : list Document) (ps : list Progress) :
  length (progress_events buf ps) = length (emitted ps).
Proof.
  revert buf. induction ps as [|p ps IH]; intros buf; simpl; [reflexivity|].
  destruct (currentDocument p); simpl; rewrite IH; reflexivity.
Qed.

(** What [saveJob] logs has no progress call, no call that fails the job,
    and at most one call that completes it. *)
Lemma saveJob_events_shape (result : list ResultDoc) :
  filter is_progress (saveJob_events w job result) = [] /\
  (filter is_transition (saveJob_events w job result) = [] \/
   filter is_transition (saveJob_events w job result)
     = [MoveToCompleted (if use_db w then None else Some result)]).
Proof.
  rewrite saveJob_events_cases. destruct (use_db w); simpl.
  - destruct (dbUpdate_outcome w (job_id job) result) as [[e|]|e]; simpl; auto.
  - auto.
Qed.

Ltac other_course :=
  match goal with
  | H1 : ?x = Ret _, H2 : ?x = Throw _ |- _ => rewrite H1 in H2; discriminate
  | H1 : ?x = Throw _, H2 : ?x = Ret _ |- _ => rewrite H1 in H2; discriminate
  | H : crawl_found _ _ _ |- _ => destruct H as (? & ? & ?); other_course
  | H1 : ?x = Ret ?a, H2 : ?x = Ret [] |- _ =>
      rewrite H1 in H2; injection H2 as ->; congruence
  end.

(** X1. The executor never throws: whatever the collaborators do it returns a
    result; a result without success carries no documents; and the result
    is a success exactly when [setOptions] resolves and the pipeline finds
    nothing, or finds documents that the billing gate accepts. *)
Theorem executor_result :
  exists r,
    fst (startWebScraperPipeline w job initial) = Ret r /\
    (success r = false -> docs r = []) /\
    (success r = true <->
     setOptions_outcome w (job_options w job) = Ret tt /\
     (snd (getDocuments_run w (job_options w job)) = Ret [] \/
      exists found, crawl_found w job found /\ billed w job found)).
Proof.
  destruct run_cases as [e Hset|e Hset Hdocs|Hset Hdocs
                                |found e Hf Hbill|found b Hf Hbill Hb
                                |found b Hf Hbill Hb];
    eexists; (split; [reflexivity|]); simpl;
    (split; [intros Hs; first [reflexivity|discriminate]|]).
  - split; [discriminate|]. intros (H & _). other_course.
  - split; [discriminate|]. intros (_ & [H|(found & Hf & _)]); other_course.
  - split; auto.
  - split; [discriminate|].
    intros (_ & [H|(found' & Hf' & b & Hbill' & _)]).
    + other_course.
    + rewrite (crawl_found_unique Hf Hf') in Hbill'. other_course.
  - split; [discriminate|].
    intros (_ & [H|(found' & Hf' & b' & Hbill' & Hb')]).
    + other_course.
    + rewrite (crawl_found_unique Hf Hf') in Hbill'. congruence.
  - split; [intros _|reflexivity].
    split; [apply Hf|]. right. exists found. split; [exact Hf|].
    exists b. split; assumption.
Qed.

(** X2. A job execution makes at most one call that moves the job to a
    terminal state.  It calls [moveToFailed] with [e] exactly when
    [setOptions], the pipeline or the billing gate rejects with [e], and
    then returns the failure result with the message of [e].  It calls
    [moveToCompleted] only for documents the billing gate accepted, with
    the filtered set, or with [null] under database authentication. *)
Theorem one_terminal_call :
  let run := startWebScraperPipeline w job initial in
  length (filter is_transition (log (snd run))) <= 1 /\
  (forall e, In (MoveToFailed e) (log (snd run)) <-> rejected w job e) /\
  (forall e, In (MoveToFailed e) (log (snd run)) -> fst run = Ret (failure e)) /\
  (forall v, In (MoveToCompleted v) (log (snd run)) ->
             exists found,
               crawl_found w job found /\ billed w job found /\
               v = if use_db w then None else Some (job_filtered job found)).
Proof.
  intros run.
  assert (Hin : forall ev, is_transition ev = true ->
                  (In ev (log (snd run))
                   <-> In ev (filter is_transition (log (snd run))))).
  { intros ev Hev. rewrite filter_In. tauto. }
  assert (HF : forall e, In (MoveToFailed e) (log (snd run))
                 <-> In (MoveToFailed e) (filter is_transition (log (snd run))))
    by (intros e; apply Hin; reflexivity).
  assert (HC : forall v, In (MoveToCompleted v) (log (snd run))
                 <-> In (MoveToCompleted v) (filter is_transition (log (snd run))))
    by (intros v; apply Hin; reflexivity).
  clear Hin. unfold rejected. revert HF HC. unfold run. clear run.
  destruct run_cases as [e Hset|e Hset Hdocs|Hset Hdocs
                                |found e Hf Hbill|found b Hf Hbill Hb
                                |found b Hf Hbill Hb];
    cbn [fst snd log filter is_transition];
    rewrite ?filter_app, ?progress_events_no_transition;
    cbn [fst snd log filter is_transition app length]; intros HF HC.
  - split; [lia|]. split; [|split].
    + intros e'. rewrite HF. simpl. split.
      * intros [H|[]]. injection H as <-. left. exact Hset.
      * intros [H|[(H & _)|(found & Hf & _)]]; try other_course.
        left. congruence.
    + intros e'. rewrite HF. intros [H|[]]. injection H as <-. reflexivity.
    + intros v. rewrite HC. intros [H|[]]. discriminate.
  - split; [lia|]. split; [|split].
    + intros e'. rewrite HF. simpl. split.
      * intros [H|[]]. injection H as <-. right. left. split; assumption.
      * intros [H|[(_ & H)|(found & Hf & _)]]; try other_course.
        left. congruence.
    + intros e'. rewrite HF. intros [H|[]]. injection H as <-. reflexivity.
    + intros v. rewrite HC. intros [H|[]]. discriminate.
  - split; [lia|]. split; [|split].
    + intros e'. rewrite HF. simpl. split; [tauto|].
      intros [H|[(_ & H)|(found & Hf & _)]]; other_course.
    + intros e'. rewrite HF. intros [].
    + intros v. rewrite HC. intros [].
  - split; [lia|]. split; [|split].
    + intros e'. rewrite HF. simpl. split.
      * intros [H|[]]. injection H as <-. right. right.
        exists found. split; assumption.
      * intros [H|[(_ & H)|(found' & Hf' & Hbill')]]; try other_course.
        rewrite (crawl_found_unique Hf Hf') in Hbill'. left. congruence.
    + intros e'. rewrite HF. intros [H|[]]. injection H as <-. reflexivity.
    + intros v. rewrite HC. intros [H|[]]. discriminate.
  - split; [lia|]. split; [|split].
    + intros e'. rewrite HF. simpl. split; [tauto|].
      intros [H|[(_ & H)|(found' & Hf' & Hbill')]]; try other_course.
      rewrite (crawl_found_unique Hf Hf') in Hbill'. congruence.
    + intros e'. rewrite HF. intros [].
    + intros v. rewrite HC. intros [].
  - destruct (saveJob_events_shape (job_filtered job found)) as (_ & [Ht|Ht]);
      rewrite Ht in *; cbn [length].
    + split; [lia|]. split; [|split].
      * intros e'. rewrite HF. simpl. split; [tauto|].
        intros [H|[(_ & H)|(found' & Hf' & Hbill')]]; try other_course.
        rewrite (crawl_found_unique Hf Hf') in Hbill'. congruence.
      * intros e'. rewrite HF. intros [].
      * intros v. rewrite HC. intros [].
    + split; [lia|]. split; [|split].
      * intros e'. rewrite HF. simpl. split; [intros [H|[]]; discriminate|].
        intros [H|[(_ & H)|(found' & Hf' & Hbill')]]; try other_course.
        rewrite (crawl_found_unique Hf Hf') in Hbill'. congruence.
      * intros e'. rewrite HF. intros [H|[]]. discriminate.
      * intros v. rewrite HC. intros [H|[]]. injection H as <-.
        exists found. split; [exact Hf|]. split; [|reflexivity].
        exists b. split; assumption.
Qed.

Lemma slice_last_keeps_new {A} (n : nat) (a : list A) (x : A) :
  slice_last (Datatypes.S n) (a ++ [x]) = slice_last n a ++ [x].
Proof.
  unfold slice_last. rewrite length_app. simpl.
  replace (length a + 1 - Datatypes.S n) with (length a - n) by lia.
  rewrite skipn_app.
  replace (length a - n - length a) with 0 by lia. reflexivity.
Qed.

Lemma progress_events_In (p : Progress) (part : list Document) (ps : list Progress) :
  forall buf, In (JobProgress p part) (progress_events buf ps) ->
              In p ps /\
              exists d older, currentDocument p = Some d /\
                              part = older ++ [d] /\ length older <= 49.
Proof.
  induction ps as [|p0 ps IH]; intros buf Hin; simpl in Hin; [destruct Hin|].
  destruct (currentDocument p0) as [d|] eqn:Hd.
  - destruct Hin as [Heq|Hin].
    + injection Heq as -> <-. split; [left; reflexivity|].
      exists d, (slice_last 49 buf). split; [exact Hd|].
      split; [apply slice_last_keeps_new|].
      rewrite slice_last_length. lia.
    + destruct (IH _ Hin) as (H1 & H2). split; [right; exact H1|exact H2].
  - destruct (IH _ Hin) as (H1 & H2). split; [right; exact H1|exact H2].
Qed.

(** X4. When [setOptions] resolves, the execution publishes progress once per
    report that carries a document, and for no other report, also when
    the pipeline rejects afterwards.  Each publication comes from a report
    of the pipeline and its buffer ends with that report's document, after
    at most 49 older ones. *)
Theorem progress_published_per_document :
  setOptions_outcome w (job_options w job) = Ret tt ->
  let l := log (snd (startWebScraperPipeline w job initial)) in
  let ps := fst (getDocuments_run w (job_options w job)) in
  length (filter is_progress l) = length (emitted ps) /\
  (forall p part, In (JobProgress p part) l ->
      In p ps /\
      exists d older, currentDocument p = Some d /\
                      part = older ++ [d] /\ length older <= 49).
Proof.
  intros Hset l ps. unfold l, ps. clear l ps.
  assert (Hin : forall p part lg,
             In (JobProgress p part) lg <-> In (JobProgress p part) (filter is_progress lg)).
  { intros p part lg. rewrite filter_In. simpl. tauto. }
  assert (Hdone : forall lg,
             filter is_progress lg
             = progress_events [] (fst (getDocuments_run w (job_options w job))) ->
             length (filter is_progress lg)
             = length (emitted (fst (getDocuments_run w (job_options w job)))) /\
             (forall p part, In (JobProgress p part) lg ->
                 In p (fst (getDocuments_run w (job_options w job))) /\
                 exists d older, currentDocument p = Some d /\
                                 part = older ++ [d] /\ length older <= 49)).
  { intros lg Hlg. split.
    - rewrite Hlg. apply progress_events_length.
    - intros p part H. apply Hin in H. rewrite Hlg in H.
      apply (@progress_events_In _ _ _ _ H). }
  apply Hdone.
  destruct run_cases as [e Hset'|e Hset' Hdocs|Hset' Hdocs
                        |found e Hf Hbill|found b Hf Hbill Hb
                        |found b Hf Hbill Hb];
    [rewrite Hset in Hset'; discriminate|..];
    cbn [fst snd log filter is_progress];
    rewrite ?filter_app, progress_events_all_progress;
    cbn [filter is_progress]; rewrite ?app_nil_r; try reflexivity.
  destruct (saveJob_events_shape (job_filtered job found)) as (-> & _).
  apply app_nil_r.
Qed.

Lemma filter_blank_none (found : list Document) :
  Forall (fun d => blank (content d) = true) found ->
  filter (fun d => negb (blank (content d))) found = [].
Proof.
  induction 1 as [|d found Hd _ IH]; simpl; [reflexivity|].
  rewrite Hd. exact IH.
Qed.

(** X5. A crawl that found documents is billed once, for the size of the
    filtered set: never for more documents than the pipeline returned, and
    without [returnOnlyUrls] for exactly the documents whose content is not
    blank.  If all of them are blank the team is billed for zero documents
    and, when the gate accepts, the result is a success with no documents
    and an empty message. *)
Theorem billing_count_bounded (found : list Document) :
  crawl_found w job found ->
  let run := startWebScraperPipeline w job initial in
  let k := length (job_filtered job found) in
  (exists pre post,
      log (snd run) = pre ++ BillTeam (data_team_id (job_data job)) k :: post) /\
  k <= length found /\
  (returnOnlyUrls (data_crawlerOptions (job_data job)) = false ->
   k = length (filter (fun d => negb (blank (content d))) found) /\
   (Forall (fun d => blank (content d) = true) found ->
    k = 0 /\
    (billed w job found ->
     fst run = Ret {| success := true; message := lit ""; docs := [] |}))).
Proof.
  intros Hfound run k.
  destruct (run_found_billed_once Hfound) as (_ & tail & Hlog).
  split; [eexists; exists tail; exact Hlog|].
  assert (Hfilter : returnOnlyUrls (data_crawlerOptions (job_data job)) = false ->
                    job_filtered job found
                    = map RDocument (filter (fun d => negb (blank (content d))) found)).
  { intros Hco. unfold job_filtered, filterDocs. rewrite Hco. f_equal.
    apply filter_ext. apply has_content_blank. }
  split.
  - unfold k, job_filtered, filterDocs.
    destruct (returnOnlyUrls (data_crawlerOptions (job_data job))).
    + rewrite length_map. lia.
    + rewrite length_map. apply filter_length_le.
  - intros Hco. unfold k. rewrite (Hfilter Hco), length_map.
    split; [reflexivity|]. intros Hblank.
    rewrite (filter_blank_none Hblank). split; [reflexivity|].
    intros (b & Hbill & Hb). destruct Hfound as (Hset & Hdocs & Hne).
    unfold run. rewrite (run_billing_accepted w job Hset Hdocs Hne Hbill Hb).
    simpl. rewrite (Hfilter Hco), (filter_blank_none Hblank). reflexivity.
Qed.

(** X6. [saveJob] never throws and only appends to the log.  It writes to the
    database exactly under database authentication.  If that update
    reports an error or rejects, the job is not moved to completed and the
    failure is logged.  Nothing else is logged as an error: a rejection of
    [moveToCompleted] is swallowed. *)
Theorem saveJob_isolates_failures (result : list ResultDoc) (st : St) :
  exists evs,
    saveJob w job result st =
      (Ret tt, {| partialDocs := partialDocs st; log := log st ++ evs |}) /\
    (forall id r, In (DbUpdate id r) evs <->
                  use_db w = true /\ id = job_id job /\ r = result) /\
    (use_db w = true ->
     dbUpdate_outcome w (job_id job) result <> Ret None ->
     (forall v, ~ In (MoveToCompleted v) evs) /\
     exists e, In (ConsoleError (lit "Failed to update job status:") e) evs) /\
    (forall m e, In (ConsoleError m e) evs ->
                 use_db w = true /\
                 dbUpdate_outcome w (job_id job) result <> Ret None) /\
    (forall e, ~ In (MoveToFailed e) evs).
Proof.
  exists (saveJob_events w job result).
  split; [apply saveJob_run|].
  rewrite saveJob_events_cases.
  destruct (use_db w); simpl.
  - destruct (dbUpdate_outcome w (job_id job) result) as [[e|]|e]; simpl.
    + split; [|split; [|split]].
      * intros id r. split.
        -- intros [H|[H|[]]]; [|discriminate]. injection H as <- <-. auto.
        -- intros (_ & -> & ->). left. reflexivity.
      * intros _ _. split.
        -- intros v [H|[H|[]]]; discriminate.
        -- eexists. right. left. reflexivity.
      * intros m e' _. split; [reflexivity|discriminate].
      * intros e' [H|[H|[]]]; discriminate.
    + split; [|split; [|split]].
      * intros id r. split.
        -- intros [H|[H|[]]]; [|discriminate]. injection H as <- <-. auto.
        -- intros (_ & -> & ->). left. reflexivity.
      * intros _ H. congruence.
      * intros m e' [H|[H|[]]]; discriminate.
      * intros e' [H|[H|[]]]; discriminate.
    + split; [|split; [|split]].
      * intros id r. split.
        -- intros [H|[H|[]]]; [|discriminate]. injection H as <- <-. auto.
        -- intros (_ & -> & ->). left. reflexivity.
      * intros _ _. split.
        -- intros v [H|[H|[]]]; discriminate.
        -- eexists. right. left. reflexivity.
      * intros m e' _. split; [reflexivity|discriminate].
      * intros e' [H|[H|[]]]; discriminate.
  - split; [|split; [|split]].
    + intros id r. split.
      * intros [H|[]]. discriminate.
      * intros (H & _). discriminate.
    + discriminate.
    + intros m e' [H|[]]. discriminate.
    + intros e' [H|[]]. discriminate.
Qed.

End Executions.

(* ===================================================================== *)
(** ** Normalization of the input *)
(* ===================================================================== *)

Section Normalization.

Lemma eqb_eq (a b : jsstring) : JS.eqb a b = true <-> a = b.
Proof.
  revert b. induction a as [|x a IH]; intros [|y b]; simpl;
    try (split; [reflexivity|reflexivity]); try (split; discriminate).
  rewrite andb_true_iff, N.eqb_eq, IH.
  split; [intros (-> & ->); reflexivity|intros H; injection H; auto].
Qed.

Lemma split_not_nil (sep : N) (s : jsstring) : split sep s <> [].
Proof.
  destruct s as [|c s]; simpl; [discriminate|].
  destruct (N.eqb c sep); [discriminate|].
  destruct (split sep s); discriminate.
Qed.

Lemma join_cons (sep : N) (p : jsstring) (rest : list jsstring) :
  rest <> [] -> join sep (p :: rest) = p ++ sep :: join sep rest.
Proof. destruct rest; [congruence|reflexivity]. Qed.

(** Joining the pieces with the separator gives the string back. *)
Lemma join_split (sep : N) (s : jsstring) : join sep (split sep s) = s.
Proof.
  induction s as [|c s IH]; [reflexivity|].
  cbn [split].
  destruct (N.eqb c sep) eqn:Hc.
  - apply N.eqb_eq in Hc. subst c.
    rewrite (join_cons _ _ (split_not_nil sep s)), IH. reflexivity.
  - destruct (split sep s) as [|p rest] eqn:Hs; [destruct (split_not_nil _ _ Hs)|].
    destruct rest as [|p' rest].
    + simpl in *. rewrite IH. reflexivity.
    + rewrite join_cons by discriminate.
      rewrite join_cons in IH by discriminate.
      rewrite <- IH. reflexivity.
Qed.

(** No piece holds the separator. *)
Lemma split_pieces (sep : N) (s : jsstring) :
  Forall (fun u => ~ In sep u) (split sep s).
Proof.
  induction s as [|c s IH]; simpl.
  - constructor; [intros []|constructor].
  - destruct (N.eqb c sep) eqn:Hc.
    + constructor; [intros []|exact IH].
    + apply N.eqb_neq in Hc.
      destruct (split sep s) as [|p rest]; [repeat constructor; intros [H|[]]; congruence|].
      inversion IH as [|? ? Hp Hrest]; subst.
      constructor; [|exact Hrest].
      intros [H|H]; [congruence|exact (Hp H)].
Qed.

(** There is one piece more than there are separators. *)
Lemma split_length (sep : N) (s : jsstring) :
  length (split sep s) = Datatypes.S (count_occ N.eq_dec s sep).
Proof.
  induction s as [|c s IH]; simpl; [reflexivity|].
  destruct (N.eqb c sep) eqn:Hc.
  - apply N.eqb_eq in Hc. subst c.
    destruct (N.eq_dec sep sep); [|congruence]. simpl. rewrite IH. reflexivity.
  - apply N.eqb_neq in Hc.
    destruct (N.eq_dec c sep); [congruence|].
    destruct (split sep s) as [|p rest] eqn:Hs; [destruct (split_not_nil _ _ Hs)|].
    simpl in *. exact IH.
Qed.

(** X7. The first call of every execution configures the pipeline with the
    job's mode and options untouched.  In mode "crawl" the whole [url] is
    the single seed, commas included, and the job id is passed along.  In
    every other mode no job id is passed and [url] is cut at its commas:
    one target more than there are commas, none holding a comma, and
    joined by commas they give [url] back. *)
Theorem input_normalization (w : World) (job : Job) :
  let o := job_options w job in
  let d := job_data job in
  (exists rest, log (snd (startWebScraperPipeline w job initial)) = SetOptions o :: rest) /\
  po_mode o = data_mode d /\
  po_crawlerOptions o = data_crawlerOptions d /\
  po_pageOptions o = data_pageOptions d /\
  (data_mode d = lit "crawl" ->
   po_urls o = [data_url d] /\ po_bullJobId o = Some (job_id job)) /\
  (data_mode d <> lit "crawl" ->
   po_bullJobId o = None /\
   join 44 (po_urls o) = data_url d /\
   Forall (fun u => ~ In 44%N u) (po_urls o) /\
   length (po_urls o) = Datatypes.S (count_occ N.eq_dec (data_url d) 44%N)).
Proof.
  intros o d. split.
  - destruct (run_cases w job); simpl; eexists; reflexivity.
  - unfold o, job_options, provider_options, pipeline_params, d. simpl.
    destruct (JS.eqb (data_mode (job_data job)) (lit "crawl")) eqn:Hm; simpl.
    + apply eqb_eq in Hm.
      split; [reflexivity|]. split; [reflexivity|]. split; [reflexivity|].
      split; [intros _; split; reflexivity|]. intros Hne. congruence.
    + assert (Hne : data_mode (job_data job) <> lit "crawl").
      { intros Heq. apply eqb_eq in Heq. congruence. }
      split; [reflexivity|]. split; [reflexivity|]. split; [reflexivity|].
      split; [intros Heq; congruence|]. intros _.
      split; [reflexivity|]. split; [apply join_split|].
      split; [apply split_pieces|apply split_length].
Qed.

End Normalization.

(* ===================================================================== *)
(** ** Every run of the unpause handler *)
(* ===================================================================== *)

Section Unpause.

Import Server.

Variable q : Queue.

Let failed (e : Error) : Response :=
  {| status := 500; body := BodyError (err_message e) |}.
Let ok : Response := {| status := 200; body := BodyOk |}.
Let reqs (jobs : list Job) := map requeue_request jobs.

(** The queue cannot list its active jobs: nothing else is called. *)
Lemma unpause_getActive_throws (e : Error) :
  getActive_outcome q = Throw e ->
  unpause q [] = (Ret (failed e), [GetActive; ConsoleError (lit "") None e]).
Proof.
  intros H. unfold unpause, try_catch, bind, emit, ask, ret. simpl.
  rewrite H. reflexivity.
Qed.

(** No active job: the queue is resumed at once. *)
Lemma unpause_no_jobs :
  getActive_outcome q = Ret [] ->
  unpause q [] =
    match resume_outcome q with
    | Ret _ => (Ret ok, [GetActive; ConsoleLog (lit "Requeueing") (Some 0); Resume])
    | Throw e => (Ret (failed e),
                  [GetActive; ConsoleLog (lit "Requeueing") (Some 0); Resume;
                   ConsoleError (lit "") None e])
    end.
Proof.
  intros H. unfold unpause, try_catch, bind, emit, ask, ret. simpl.
  rewrite H. simpl. destruct (resume_outcome q) as [[]|e]; reflexivity.
Qed.

(** Active jobs: they are reclaimed and resubmitted; the queue is resumed
    only if the resubmission resolves. *)
Lemma unpause_jobs (jobs : list Job) :
  getActive_outcome q = Ret jobs ->
  jobs <> [] ->
  exists tasks,
    let front :=
      [GetActive;
       ConsoleLog (lit "Requeueing") (Some (length jobs));
       ConsoleLog (lit "  Removing") (Some (length jobs));
       PromiseAll tasks;
       ConsoleLog (lit "  Re-adding") (Some (length jobs));
       AddBulk (reqs jobs)] in
    unpause q [] =
      match addBulk_outcome q (reqs jobs) with
      | Throw e => (Ret (failed e), front ++ [ConsoleError (lit "") None e])
      | Ret _ =>
          match resume_outcome q with
          | Ret _ => (Ret ok, front ++ [ConsoleLog (lit "  Done!") None; Resume])
          | Throw e => (Ret (failed e),
                        front ++ [ConsoleLog (lit "  Done!") None; Resume;
                                  ConsoleError (lit "") None e])
          end
      end.
Proof.
  intros Hactive Hne.
  destruct (promise_all_reclaim q jobs
              [GetActive;
               ConsoleLog (lit "Requeueing") (Some (length jobs));
               ConsoleLog (lit "  Removing") (Some (length jobs))])
    as (tasks & Hall & _).
  assert (Hlen : (0 <? length jobs) = true).
  { destruct jobs; [congruence|reflexivity]. }
  exists tasks. cbv zeta.
  unfold unpause, try_catch.
  unfold bind at 1. unfold emit at 1. cbn [app].
  unfold bind at 1. unfold ask at 1. rewrite Hactive.
  unfold bind at 1. unfold emit at 1. cbn [app].
  unfold bind at 1. rewrite Hlen.
  unfold bind at 1. unfold emit at 1. cbn [app].
  unfold bind at 1. rewrite Hall. cbn [app].
  unfold bind at 1. unfold emit at 1. cbn [app].
  unfold bind at 1. unfold emit at 1. cbn [app].
  unfold bind, emit, ask, ret. fold (reqs jobs).
  destruct (addBulk_outcome q (reqs jobs)) as [[]|e]; [|reflexivity].
  destruct (resume_outcome q) as [[]|e]; reflexivity.
Qed.

(** X8. The handler calls [addBulk] exactly when the queue lists at least one
    active job, with one request per listed job in order.  It resumes the
    queue exactly when the active jobs were listed and, if there were any,
    their resubmission resolved: when [addBulk] rejects the queue stays
    paused although the jobs were already reclaimed. *)
Theorem unpause_queue_calls :
  (forall rs, In (AddBulk rs) (snd (unpause q [])) <->
              exists jobs, getActive_outcome q = Ret jobs /\ jobs <> [] /\
                           rs = map requeue_request jobs) /\
  (In Resume (snd (unpause q [])) <->
   exists jobs, getActive_outcome q = Ret jobs /\
                (jobs = [] \/ addBulk_outcome q (map requeue_request jobs) = Ret tt)).
Proof.
  destruct (getActive_outcome q) as [jobs|e] eqn:Hactive.
  2:{ rewrite (unpause_getActive_throws Hactive). simpl. split.
      - intros rs. split.
        + intros [H|[H|[]]]; discriminate.
        + intros (jobs & H & _). discriminate.
      - split.
        + intros [H|[H|[]]]; discriminate.
        + intros (jobs & H & _). discriminate. }
  destruct jobs as [|x jobs].
  { rewrite (unpause_no_jobs Hactive). split.
    - intros rs. split.
      + destruct (resume_outcome q); simpl; intuition discriminate.
      + intros (jobs & H & Hne & _). congruence.
    - split.
      + intros _. exists []. auto.
      + intros _. destruct (resume_outcome q); simpl; auto. }
  assert (Hne : x :: jobs <> []) by discriminate.
  destruct (unpause_jobs Hactive Hne) as (tasks & Hrun). cbv zeta in Hrun.
  rewrite Hrun. fold (reqs (x :: jobs)). split.
  - intros rs. split.
    + intros Hin. exists (x :: jobs). split; [reflexivity|]. split; [exact Hne|].
      destruct (addBulk_outcome q (reqs (x :: jobs))) as [[]|e];
        [destruct (resume_outcome q) as [[]|e]|];
        simpl in Hin;
        repeat match type of Hin with
               | _ \/ _ =>
                   destruct Hin as [Hin|Hin];
                   [first [discriminate|injection Hin as <-; reflexivity]|]
               | False => destruct Hin
               end.
    + intros (jobs' & Hj & _ & ->). injection Hj as <-.
      destruct (addBulk_outcome q (reqs (x :: jobs))) as [[]|e];
        [destruct (resume_outcome q) as [[]|e]|];
        simpl; do 5 right; left; reflexivity.
  - split.
    + intros Hin. exists (x :: jobs). split; [reflexivity|]. right.
      fold (reqs (x :: jobs)).
      destruct (addBulk_outcome q (reqs (x :: jobs))) as [[]|e]; [reflexivity|].
      simpl in Hin.
      repeat (destruct Hin as [Hin|Hin]; [discriminate|]). destruct Hin.
    + intros (jobs' & Hj & [->|Hadd]); [discriminate|].
      injection Hj as <-. fold (reqs (x :: jobs)) in Hadd. rewrite Hadd.
      destruct (resume_outcome q) as [[]|e]; simpl; do 7 right; left; reflexivity.
Qed.


End Unpause.

(* ===================================================================== *)
(** ** The task of one reclaimed job *)
(* ===================================================================== *)

Section ReclaimOrder.

Import Server.

Variable q : Queue.
Variable x : Job.

Ltac in_task :=
  simpl;
  repeat match goal with
         | |- _ /\ _ => split
         | |- _ <-> _ => split
         | |- _ -> _ => intro
         | H : _ \/ _ |- _ => destruct H
         | H : False |- _ => destruct H
         | H : exists _, _ |- _ => destruct H
         | H : _ /\ _ |- _ => destruct H
         | H : _ = _ |- _ => discriminate H
         | H : ?a = Ret tt, H' : ?a = Throw _ |- _ => rewrite H in H'; discriminate H'
         | H : ~ _ |- False => apply H
         end;
  subst;
  first [ solve [auto 10]
        | solve [do 4 right; eexists; reflexivity]
        | solve [intros (? & ? & ? & ?); congruence]
        | solve [exfalso; match goal with H : ~ _ |- _ => apply H; auto end]
        | solve [eexists; simpl; eauto 10]
        | idtac ].

(** X10. The task of a job never rejects and touches this job only.  Its calls
    go in order and each needs the one before to have resolved: the lock
    is taken only once the stale lock was deleted, the job is moved to
    failed only under the lock, and it is removed only after it was moved
    to failed.  A warning is logged exactly when one of the calls fails. *)
Theorem reclaim_in_order :
  exists task,
    reclaim q x [] = (Ret tt, task) /\
    (forall op, In op task ->
                op = DelLock x \/ op = TakeLock x \/
                op = JobMoveToFailed x interrupted \/ op = JobRemove x \/
                exists e, op = ConsoleWarn (lit "Failed to remove job") (job_id x) e) /\
    (In (TakeLock x) task -> del_outcome q [DelLock x] x = Ret tt) /\
    (In (JobMoveToFailed x interrupted) task ->
     In (TakeLock x) task /\
     takeLock_outcome q [DelLock x; TakeLock x] x = Ret tt) /\
    (In (JobRemove x) task ->
     In (JobMoveToFailed x interrupted) task /\
     moveToFailed_outcome q [DelLock x; TakeLock x; JobMoveToFailed x interrupted] x
       = Ret tt) /\
    ((exists e, In (ConsoleWarn (lit "Failed to remove job") (job_id x) e) task)
     <-> ~ reclaim_succeeds q x).
Proof.
  unfold reclaim, reclaim_succeeds, reclaim_calls, try_catch, bind, emit, ask.
  simpl.
  destruct (del_outcome q [DelLock x] x) as [[]|e1] eqn:H1.
  2:{ eexists. split; [reflexivity|]. in_task. }
  destruct (takeLock_outcome q [DelLock x; TakeLock x] x) as [[]|e2] eqn:H2.
  2:{ eexists. split; [reflexivity|]. in_task. }
  destruct (moveToFailed_outcome q
              [DelLock x; TakeLock x; JobMoveToFailed x interrupted] x)
    as [[]|e3] eqn:H3.
  2:{ eexists. split; [reflexivity|]. in_task. }
  destruct (remove_outcome q
              [DelLock x; TakeLock x; JobMoveToFailed x interrupted; JobRemove x] x)
    as [[]|e4] eqn:H4.
  2:{ eexists. split; [reflexivity|]. in_task. }
  eexists. split; [reflexivity|]. in_task.
Qed.

End ReclaimOrder.

(* ===================================================================== *)
(** ** The answer of the retention sweep *)
(* ===================================================================== *)

Section SweepAnswer.

Import Server.

Variable q : Queue.

(** The batch requests are sent one after the other, each answered once
    it was sent. *)
Lemma start_batches_outcomes (n : nat) :
  forall a,
    start_batches q (seq a n) (map batch_request (seq 0 a)) =
      (Ret (map (batch_outcome q) (seq a n)),
       map batch_request (seq 0 (a + n))).
Proof.
  induction n as [|n IH]; intros a.
  - simpl. rewrite Nat.add_0_r. reflexivity.
  - simpl. unfold bind at 1. unfold emit at 1. unfold bind at 1.
    fold (batch_request a).
    assert (Hsent : map batch_request (seq 0 a) ++ [batch_request a]
                    = map batch_request (seq 0 (Datatypes.S a))).
    { rewrite seq_S, map_app. reflexivity. }
    rewrite Hsent. unfold bind at 1. rewrite (IH (Datatypes.S a)). unfold ret.
    replace (Datatypes.S a + n) with (a + Datatypes.S n) by lia.
    reflexivity.
Qed.

Lemma all_settled_resolved {A} (xs : list A) : all_settled (map Ret xs) = Ret xs.
Proof. induction xs as [|x xs IH]; simpl; [reflexivity|]. rewrite IH. reflexivity. Qed.

Lemma all_settled_rejected {A} (rs : list (Outcome A)) (e : Error) :
  all_settled rs = Throw e -> In (Throw e) rs.
Proof.
  induction rs as [|r rs IH]; simpl; [discriminate|].
  destruct r as [a|e'].
  - destruct (all_settled rs) as [l|e'']; [discriminate|].
    intros H. injection H as <-. right. apply IH. reflexivity.
  - intros H. injection H as <-. left. reflexivity.
Qed.

Lemma all_settled_some_rejected {A} (rs : list (Outcome A)) (e : Error) :
  In (Throw e) rs -> exists e', all_settled rs = Throw e'.
Proof.
  induction rs as [|r rs IH]; intros Hin; [destruct Hin|].
  simpl. destruct r as [a|e']; [|eexists; reflexivity].
  destruct Hin as [H|Hin]; [discriminate|].
  destruct (IH Hin) as (e' & ->). eexists. reflexivity.
Qed.

Lemma removals_app (a b : list (Job * Outcome unit)) :
  removals (a ++ b) = removals a ++ removals b.
Proof. unfold removals. apply flat_map_app. Qed.

(** The removal loop, outcome by outcome: every job of the list is tried
    in order, whatever happened to the ones before; a failure is logged
    after its call; the counter grows by the removals that resolved. *)
Lemma remove_each_removals (jobs : list Job) :
  forall count l, exists os,
    length os = length jobs /\
    remove_each q jobs count l
      = (Ret (count + successes os), l ++ removals (combine jobs os)) /\
    (forall i x o, nth_error (combine jobs os) i = Some (x, o) ->
                   o = remove_outcome q
                         (l ++ removals (firstn i (combine jobs os))
                            ++ [JobRemove x]) x).
Proof.
  induction jobs as [|job jobs IH]; intros count l.
  - exists []. simpl. rewrite app_nil_r, Nat.add_0_r.
    split; [reflexivity|]. split; [reflexivity|].
    intros [|i] x o H; discriminate.
  - simpl. unfold bind at 1. unfold try_catch, bind, emit, ask, ret.
    destruct (remove_outcome q (l ++ [JobRemove job]) job) as [[]|e] eqn:Hout.
    + destruct (IH (Datatypes.S count) (l ++ [JobRemove job]))
        as (os & Hlen & Hrun & Hidx).
      exists (Ret tt :: os). simpl. rewrite Hrun, Hlen.
      split; [reflexivity|]. split.
      * f_equal; [f_equal; lia|].
        unfold removals. simpl. rewrite <- app_assoc. reflexivity.
      * intros [|i] x o H; simpl in H.
        -- injection H as <- <-. simpl. symmetry. exact Hout.
        -- rewrite (Hidx i x o H). simpl. unfold removals. simpl.
           rewrite <- !app_assoc. reflexivity.
    + destruct (IH count
                  ((l ++ [JobRemove job])
                     ++ [ConsoleError (lit "Failed to remove job with ID")
                           (Some (job_id job)) e]))
        as (os & Hlen & Hrun & Hidx).
      exists (Throw e :: os). simpl. rewrite Hrun, Hlen.
      split; [reflexivity|]. split.
      * f_equal. unfold removals. simpl. rewrite <- !app_assoc. reflexivity.
      * intros [|i] x o H; simpl in H.
        -- injection H as <- <-. simpl. symmetry. exact Hout.
        -- rewrite (Hidx i x o H). simpl. unfold removals. simpl.
           rewrite <- !app_assoc. reflexivity.
Qed.

Lemma removed_removals (jobs : list Job) :
  forall os, length os = length jobs ->
             removed (removals (combine jobs os)) = jobs.
Proof.
  induction jobs as [|job jobs IH]; intros [|o os] Hlen; try discriminate;
    [reflexivity|].
  simpl in Hlen. injection Hlen as Hlen.
  unfold removals. simpl. fold (removals (combine jobs os)).
  rewrite removed_app, (IH os Hlen).
  destruct o; reflexivity.
Qed.

(** X11. The sweep always answers, after sending its nine batch requests,
    each answered once it was sent.  If one of them rejects, the sweep
    answers 500 "Failed to clean jobs", logs the error of a rejected
    request and removes nothing.  If all of them resolve, it answers 200
    and calls [remove] on every stale job of the batches, in order: a
    removal that fails is followed by its error in the log and the loop
    goes on with the next job; each removal is answered by the queue at
    the log it was called at; the reported count is the number of removals
    that resolved. *)
Theorem sweep_answer :
  exists r tail,
    clean_before_24h_complete_jobs q [] =
      (Ret r, map batch_request (seq 0 numberOfBatches) ++ tail) /\
    ((exists e, In (Throw e) (batch_outcomes q)) ->
     r = {| status := 500; body := BodyText (lit "Failed to clean jobs") |} /\
     removed tail = [] /\
     exists e, In (Throw e) (batch_outcomes q) /\
               tail = [ConsoleError (lit "Failed to clean last 24h complete jobs:")
                         None e]) /\
    (forall batches,
        batch_outcomes q = map Ret batches ->
        let stale := before24hJobs_of (Date_now q) 0 (concat batches) in
        exists os,
          length os = length stale /\
          tail = removals (combine stale os) /\
          removed tail = stale /\
          r = {| status := 200; body := BodyRemoved (successes os) |} /\
          (forall i x o,
              nth_error (combine stale os) i = Some (x, o) ->
              o = remove_outcome q
                    (map batch_request (seq 0 numberOfBatches)
                       ++ removals (firstn i (combine stale os))
                       ++ [JobRemove x]) x)).
Proof.
  unfold clean_before_24h_complete_jobs, try_catch.
  unfold bind at 1.
  change (@nil QueueOp) with (map batch_request (seq 0 0)) at 1.
  rewrite (start_batches_outcomes numberOfBatches 0). cbn [Nat.add].
  fold (batch_outcomes q).
  unfold bind at 1. unfold ask at 1.
  destruct (all_settled (batch_outcomes q)) as [batches|e] eqn:Hall.
  - unfold bind at 1.
    destruct (remove_each_removals
                (before24hJobs_of (Date_now q) 0 (concat batches)) 0
                (map batch_request (seq 0 numberOfBatches)))
      as (os & Hlen & Hrun & Hidx).
    rewrite Hrun. unfold ret. cbn [Nat.add].
    eexists. eexists. split; [reflexivity|]. split.
    + intros (e & He). destruct (all_settled_some_rejected _ _ He) as (e' & He').
      rewrite Hall in He'. discriminate.
    + intros batches' Hb. rewrite Hb, all_settled_resolved in Hall.
      injection Hall as ->. cbv zeta. exists os.
      split; [exact Hlen|]. split; [reflexivity|].
      split; [apply removed_removals; exact Hlen|].
      split; [reflexivity|exact Hidx].
  - unfold emit, bind, ret.
    eexists. eexists. split; [reflexivity|]. split.
    + intros _. split; [reflexivity|]. split; [reflexivity|].
      exists e. split; [apply all_settled_rejected; exact Hall|reflexivity].
    + intros batches Hb. rewrite Hb, all_settled_resolved in Hall. discriminate.
Qed.

End SweepAnswer.

(* ===================================================================== *)
(** ** The size of the worker pool *)
(* ===================================================================== *)

Section Pool.

Import Server.

Lemma forks_repeat (n : nat) : forks (repeat Fork n) = n.
Proof. unfold forks. induction n as [|n IH]; simpl; auto. Qed.

Lemma forks_exits (exits : list ExitEvent) :
  forks (flat_map on_exit exits) + killed exits = length exits.
Proof.
  unfold killed. induction exits as [|ev exits IH]; simpl; [reflexivity|].
  rewrite forks_app. unfold on_exit at 1.
  destruct (exit_code ev); simpl.
  - change (forks [LogWorkerExited (worker_pid ev); LogStartingNewWorker; Fork])
      with 1. lia.
  - change (forks []) with 0. lia.
Qed.

(** X12. The master starts two workers when [ENV] is "local" and one per CPU
    otherwise.  From then on the workers forked and the workers killed by a
    signal add up to the initial pool and the exits seen: the pool keeps
    its size over exits with a code and shrinks by one with each kill. *)
Theorem pool_size (ENV : option jsstring) (cpus : nat) (exits : list ExitEvent) :
  forks (master_start ENV cpus) = numCPUs ENV cpus /\
  (ENV = Some (lit "local") -> numCPUs ENV cpus = 2) /\
  (ENV <> Some (lit "local") -> numCPUs ENV cpus = cpus) /\
  forks (master ENV cpus exits) + killed exits
    = numCPUs ENV cpus + length exits.
Proof.
  assert (Hstart : forks (master_start ENV cpus) = numCPUs ENV cpus).
  { unfold master_start. change (forks (repeat Fork (numCPUs ENV cpus))
                                 = numCPUs ENV cpus). apply forks_repeat. }
  split; [exact Hstart|]. split; [|split].
  - intros ->. reflexivity.
  - intros Hne. unfold numCPUs. destruct ENV as [v|]; [|reflexivity].
    destruct (JS.eqb v (lit "local")) eqn:Hv; [|reflexivity].
    apply eqb_eq in Hv. congruence.
  - unfold master. rewrite forks_app, Hstart.
    pose proof (forks_exits exits). lia.
Qed.

End Pool.

(* ===================================================================== *)
(** ** The deferred alert *)
(* ===================================================================== *)

Section DeferredAlert.

Import Admin.

Variable env : Env.

Let initiated : Call :=
  Respond {| status := 200; body := BodyMessage (lit "Check initiated") |}.

(** The waiting count at the request. *)
Let first_reading : Outcome nat :=
  getWaitingCount_outcome env [initiated; GetWaitingCount].

(** The waiting count when the timer fires. *)
Let second_reading : Outcome nat :=
  getWaitingCount_outcome env
    [initiated; GetWaitingCount; SetTimeout timeout; GetWaitingCount].

Ltac in_calls H :=
  simpl in H;
  repeat match type of H with
         | _ \/ _ => destruct H as [H|H]; [try discriminate H|]
         | False => destruct H
         end.

(** X13. Without a webhook URL the handler does nothing, not even respond.
    With one it responds "Check initiated" first, once, before it reads
    the queue.  The webhook is called exactly when the waiting count is at
    least 1 at the request and again at least 1 when the timer, set to
    60000 ms, fires; the alert then carries the second count. *)
Theorem deferred_alert :
  let l := snd (notify_then_timer env []) in
  (truthy (SLACK_WEBHOOK_URL env) = false -> l = []) /\
  (truthy (SLACK_WEBHOOK_URL env) = true ->
   exists rest, l = initiated :: GetWaitingCount :: rest /\
                filter is_respond rest = []) /\
  (forall ms, In (SetTimeout ms) l -> ms = 60000%N) /\
  (forall u a, In (Fetch u a) l <->
     truthy (SLACK_WEBHOOK_URL env) = true /\
     u = SLACK_WEBHOOK_URL env /\
     exists c1 c2, first_reading = Ret c1 /\ 1 <= c1 /\
                   second_reading = Ret c2 /\ 1 <= c2 /\
                   a = {| alert_count := c2; alert_treshold := 1;
                          alert_minutes := 1 |}).
Proof.
  unfold notify_then_timer, notify, checkWaitingJobs, recheck,
    getWaitingJobsCount, treshold.
  destruct (truthy (SLACK_WEBHOOK_URL env)) eqn:Hurl.
  2:{ simpl. split; [reflexivity|]. split; [discriminate|]. split.
      - intros ms [].
      - intros u a. split; [intros []|intros (H & _); discriminate]. }
  unfold try_catch, bind, emit, ask, ret. cbn [app].
  fold initiated. fold first_reading.
  destruct first_reading as [c1|e1] eqn:H1.
  2:{ cbn [snd]. split; [discriminate|]. split.
      - intros _. eexists. split; reflexivity.
      - split.
        + intros ms H. in_calls H.
        + intros u a. split.
          * intros H. in_calls H.
          * intros (_ & _ & c1 & c2 & H & _). discriminate. }
  destruct (1 <=? c1) eqn:Hc1.
  2:{ apply Nat.leb_gt in Hc1. cbn [snd]. split; [discriminate|]. split.
      - intros _. eexists. split; reflexivity.
      - split.
        + intros ms H. in_calls H.
        + intros u a. split.
          * intros H. in_calls H.
          * intros (_ & _ & c1' & c2 & H & Hle & _).
            injection H as <-. lia. }
  apply Nat.leb_le in Hc1. cbn [app]. fold second_reading.
  destruct second_reading as [c2|e2] eqn:H2.
  2:{ cbn [snd]. split; [discriminate|]. split.
      - intros _. eexists. split; reflexivity.
      - split.
        + intros ms H. in_calls H. injection H as <-. reflexivity.
        + intros u a. split.
          * intros H. in_calls H.
          * intros (_ & _ & c1' & c2 & _ & _ & H & _). discriminate. }
  destruct (1 <=? c2) eqn:Hc2.
  2:{ apply Nat.leb_gt in Hc2. cbn [snd]. split; [discriminate|]. split.
      - intros _. eexists. split; reflexivity.
      - split.
        + intros ms H. in_calls H. injection H as <-. reflexivity.
        + intros u a. split.
          * intros H. in_calls H.
          * intros (_ & _ & c1' & c2' & _ & _ & H & Hle & _).
            injection H as <-. lia. }
  apply Nat.leb_le in Hc2. cbn [app].
  assert (Hfetch : forall tail u a,
             (forall u' a', ~ In (Fetch u' a') tail) ->
             (In (Fetch u a)
                ([initiated; GetWaitingCount; SetTimeout timeout; GetWaitingCount;
                  Fetch (SLACK_WEBHOOK_URL env)
                    {| alert_count := c2; alert_treshold := 1;
                       alert_minutes := (timeout / 60000)%N |}] ++ tail)
              <-> true = true /\ u = SLACK_WEBHOOK_URL env /\
                  exists c1' c2', Ret c1 = Ret c1' /\ 1 <= c1' /\
                                  Ret c2 = Ret c2' /\ 1 <= c2' /\
                                  a = {| alert_count := c2'; alert_treshold := 1;
                                         alert_minutes := 1 |})).
  { intros tail u a Htail. split.
    - intros H. in_calls H.
      + injection H as <- <-. split; [reflexivity|]. split; [reflexivity|].
        exists c1, c2. repeat split; auto.
      + destruct (Htail _ _ H).
    - intros (_ & -> & c1' & c2' & _ & _ & Hc & _ & ->).
      injection Hc as <-. do 4 right. left. reflexivity. }
  destruct (fetch_outcome env) as [[|]|e] eqn:Hf; cbn [negb snd app].
  - split; [discriminate|]. split; [intros _; eexists; split; reflexivity|].
    split.
    + intros ms H. in_calls H. injection H as <-. reflexivity.
    + intros u a. apply (Hfetch [] u a). intros u' a' [].
  - split; [discriminate|]. split; [intros _; eexists; split; reflexivity|].
    split.
    + intros ms H. in_calls H. injection H as <-. reflexivity.
    + intros u a.
      apply (Hfetch [ConsoleError (lit "Failed to send Slack notification") None] u a).
      intros u' a' [H|[]]. discriminate.
  - split; [discriminate|]. split; [intros _; eexists; split; reflexivity|].
    split.
    + intros ms H. in_calls H. injection H as <-. reflexivity.
    + intros u a. apply (Hfetch [] u a). intros u' a' [].
Qed.

End DeferredAlert.

(* ===================================================================== *)
(** ** Instances *)
(* ===================================================================== *)

Lemma progress_published_per_document_witness :
  length (filter is_progress
            (log (snd (startWebScraperPipeline Cases.failing_after_progress
                         (Sample.job false) initial)))) = 2.
Proof.
  exact (proj1 (@progress_published_per_document Cases.failing_after_progress
                  (Sample.job false) eq_refl)).
Defined.

Lemma billing_count_bounded_witness :
  let w := Sample.world (Ret [Sample.doc " " None; Sample.doc "" None])
             Sample.accepted None in
  fst (startWebScraperPipeline w (Sample.job false) initial)
  = Ret {| success := true; message := lit ""; docs := [] |}.
Proof.
  intros w.
  refine (proj2 (proj2 (proj2 (proj2
            (@billing_count_bounded w (Sample.job false)
               [Sample.doc " " None; Sample.doc "" None] _)) eq_refl) _) _).
  - repeat split. discriminate.
  - repeat constructor.
  - exists {| billing_success := true |}. split; reflexivity.
Defined.

(** Under database authentication a failed update leaves the job without
    any terminal call, although the executor reports success. *)
Lemma one_terminal_call_witness :
  filter is_transition
    (log (snd (startWebScraperPipeline Cases.db_failing (Sample.job false) initial)))
  = [] /\
  forall e, ~ In (MoveToFailed e)
              (log (snd (startWebScraperPipeline Cases.db_failing
                           (Sample.job false) initial))).
Proof.
  split; [reflexivity|].
  intros e He.
  apply (proj1 (proj1 (proj2 (one_terminal_call Cases.db_failing (Sample.job false))) e))
    in He.
  destruct He as [H|[(_ & H)|(found & _ & H)]]; discriminate.
Defined.

(** When [addBulk] rejects, the queue is not resumed. *)
Lemma unpause_queue_calls_witness :
  ~ In Server.Resume (snd (Server.unpause Cases.queue_addBulk_fails [])).
Proof.
  intros H.
  apply (proj1 (proj2 (unpause_queue_calls Cases.queue_addBulk_fails))) in H.
  destruct H as (jobs & Hj & [->|H]); discriminate.
Defined.


(** Two stale jobs, the first of which cannot be removed: the failure is
    logged, the second job is removed all the same, and one is counted. *)
Lemma sweep_answer_witness :
  let late := Sample.finished "4" (Sample.sweep_time - Server.day_ms - 5) in
  Server.clean_before_24h_complete_jobs Cases.queue_remove_fails [] =
    (Ret {| Server.status := 200; Server.body := Server.BodyRemoved 1 |},
     map batch_request (seq 0 Server.numberOfBatches)
       ++ [Server.JobRemove Sample.stale;
           Server.ConsoleError (lit "Failed to remove job with ID")
             (Some (lit "1")) {| err_message := lit "locked" |};
           Server.JobRemove late]).
Proof.
  intros late.
  destruct (sweep_answer Cases.queue_remove_fails) as (r & tail & Hrun & _ & Hall).
  destruct (Hall ([Sample.stale; late] :: repeat [] 8) eq_refl)
    as (os & Hlen & Htail & _ & Hr & Hidx).
  destruct os as [|o1 [|o2 [|o3 os]]]; try discriminate Hlen.
  pose proof (Hidx 0 Sample.stale o1 eq_refl) as H1.
  pose proof (Hidx 1 late o2 eq_refl) as H2.
  vm_compute in H1. subst o1.
  vm_compute in H2. subst o2.
  rewrite Hrun, Hr, Htail. reflexivity.
Defined.

(** A count that is back to zero when the timer fires raises no alert; a
    count that stays at one does. *)
Lemma deferred_alert_witness :
  (forall u a, ~ In (Admin.Fetch u a)
                 (snd (Admin.notify_then_timer (Cases.alerting 1 0) []))) /\
  In (Admin.Fetch (Some (lit "https://hooks.example/T"))
        {| Admin.alert_count := 1; Admin.alert_treshold := 1;
           Admin.alert_minutes := 1 |})
     (snd (Admin.notify_then_timer (Cases.alerting 1 1) [])).
Proof.
  split.
  - intros u a H.
    apply (proj1 (proj2 (proj2 (proj2 (deferred_alert (Cases.alerting 1 0)))) u a)) in H.
    destruct H as (_ & _ & c1 & c2 & _ & _ & H2 & Hle & _).
    injection H2 as <-. inversion Hle.
  - apply (proj2 (proj2 (proj2 (proj2 (deferred_alert (Cases.alerting 1 1)))) _ _)).
    split; [reflexivity|]. split; [reflexivity|].
    exists 1, 1. repeat split; auto.
Defined.
